(** * my_stl::pair — a shallow embedding and its properties

    The development follows the three headers of the library:

    - [include/my_stl/detail/traits.hpp]     (module [class_templates])
    - [include/my_stl/detail/pair_impl.hpp]  (modules [class_templates] and [detail])
    - [include/my_stl/pair.hpp]              (modules [class_templates] and [my_stl])

    Templates are functions of type descriptors ([ctype]) when the question
    is which class a template-id names and how large it is, and functions of
    Rocq types when the question is what the member functions compute.
    Member functions that construct, assign or exchange act on a store of
    live objects (module [cxx]), where two references may name one object
    and a call may leave by an exception. *)

From Stdlib Require Import ZArith Bool List String Lia.
From stdpp Require Import base option gmap.
Import ListNotations.

Local Open Scope Z_scope.

(** ** Type descriptors *)

(** The element types the tests instantiate the templates with: scalars,
    pointers, class types (with their [final] marker, direct bases and
    non-static data members), lvalue references and arrays of known bound. *)
#[warnings="-register-all"] Inductive ctype : Type :=
| TInt
| TChar
| TDouble
| TPtr (pointee : ctype)
| TClass (name : string) (final : bool) (bases members : list ctype)
| TLRef (referred : ctype)
| TArray (elem : ctype) (bound : positive).

(** What a template instantiation comes to: a class, or a diagnostic. *)
Inductive instantiation : Type :=
| Accepted (cls : ctype)
| Rejected (diagnostic : string).

Module std.

(** Modelled from the C++ standard, not from the repository:
    [std::is_empty_v<T>] holds of a class type without non-static data
    members whose bases are all empty; of nothing else. *)
Fixpoint is_empty_v (T : ctype) : bool :=
  match T with
  | TClass _ _ bases members =>
      match members with
      | [] => forallb is_empty_v bases
      | _ :: _ => false
      end
  | _ => false
  end.

(** [std::is_final_v<T>]: a class type declared [final]. *)
Definition is_final_v (T : ctype) : bool :=
  match T with
  | TClass _ final _ _ => final
  | _ => false
  end.

Definition round_up (offset align : Z) : Z := (offset + align - 1) / align * align.

(** Modelled from the platform ABI (Itanium C++ ABI on LP64), not from the
    repository: size and alignment of a type. Direct bases are laid out
    first, an empty base taking no room, then the data members in
    declaration order, each at the next offset its alignment allows; the
    size is rounded up to the alignment and is never zero. The rule that
    two subobjects of one empty type never share an address is left out:
    the sizes are those of the platform where no empty type occurs twice
    in a class. *)
Fixpoint size_align (T : ctype) : Z * Z :=
  match T with
  | TInt => (4, 4)
  | TChar => (1, 1)
  | TDouble => (8, 8)
  | TPtr _ => (8, 8)
  | TLRef _ => (8, 8)
  | TArray elem bound => (Z.pos bound * fst (size_align elem), snd (size_align elem))
  | TClass _ _ bases members =>
      let place_base (acc : Z * Z) (B : ctype) :=
        if is_empty_v B then acc
        else (round_up (fst acc) (snd (size_align B)) + fst (size_align B),
              Z.max (snd acc) (snd (size_align B))) in
      let place_member (acc : Z * Z) (M : ctype) :=
        (round_up (fst acc) (snd (size_align M)) + fst (size_align M),
         Z.max (snd acc) (snd (size_align M))) in
      let acc := fold_left place_member members (fold_left place_base bases (0, 1)) in
      (Z.max 1 (round_up (fst acc) (snd acc)), snd acc)
  end.

Definition sizeof (T : ctype) : Z := fst (size_align T).
Definition alignof (T : ctype) : Z := snd (size_align T).

End std.

(** ** The class templates, as functions of type descriptors *)

Module class_templates.

(** traits.hpp:40-46. *)
Definition is_empty_and_non_final_v (T : ctype) : bool :=
  std.is_empty_v T && negb (std.is_final_v T).

(** pair_impl.hpp:47-207, the class heads and data members of the four
    specialisations of [pair_impl_base<T1, T2, FirstEmpty, SecondEmpty>]. *)
Definition pair_impl_base (T1 T2 : ctype) (FirstEmpty SecondEmpty : bool) : ctype :=
  match FirstEmpty, SecondEmpty with
  | false, false => TClass "pair_impl_base" false [] [T1; T2]
  | true, false => TClass "pair_impl_base" false [T1] [T2]
  | false, true => TClass "pair_impl_base" false [T2] [T1]
  | true, true => TClass "pair_impl_base" false [T1; T2] []
  end.

(** Which declaration of [pair_impl] a template-id [pair_impl<T1, T2>]
    selects (pair_impl.hpp:210-301): the three reference
    specialisations, the array specialisation, which needs an array in
    both positions, and otherwise the primary template. *)
Inductive pair_impl_decl : Type :=
| Primary
| RefFirst
| RefSecond
| RefBoth
| ArrayBoth (T1 T2 : ctype).

Definition select_pair_impl (T1 T2 : ctype) : pair_impl_decl :=
  match T1, T2 with
  | TLRef _, TLRef _ => RefBoth
  | TLRef _, _ => RefFirst
  | _, TLRef _ => RefSecond
  | TArray E1 _, TArray E2 _ => ArrayBoth E1 E2
  | _, _ => Primary
  end.

(** The class [pair_impl<T1, T2>] names, or the diagnostic of the
    [static_assert(sizeof(T1) == 0, ...)] of the array specialisation,
    where [T1] is the element type matched by [T1[N1]]. The static
    assertion is the only rejection told apart: a class that is
    ill-formed for another reason (one empty non-final type in both
    slots would be a direct base twice) is not. *)
Definition pair_impl (T1 T2 : ctype) : instantiation :=
  match select_pair_impl T1 T2 with
  | Primary =>
      Accepted (TClass "pair_impl" false
                  [pair_impl_base T1 T2 (is_empty_and_non_final_v T1)
                                        (is_empty_and_non_final_v T2)] [])
  | RefFirst | RefSecond | RefBoth =>
      Accepted (TClass "pair_impl" false [pair_impl_base T1 T2 false false] [])
  | ArrayBoth E1 E2 =>
      if std.sizeof E1 =? 0
      then Accepted (TClass "pair_impl" false
                       [pair_impl_base (TPtr E1) (TPtr E2) false false] [])
      else Rejected "Arrays cannot be used as pair members directly."
  end.


(** pair.hpp:45-54: [template <typename T1, typename T2> class pair] is
    a class without bases whose data members are [first_type first] and
    [second_type second]; the template has no static assertion and no
    constraint on [T1] or [T2]. Two lvalue-reference element types, for
    which the constructors of pair.hpp:64 and 67 have one signature, are
    not told apart. *)
Definition pair (T1 T2 : ctype) : instantiation :=
  Accepted (TClass "pair" false [] [T1; T2]).

(** The spec's yardstick: a naive two-field struct of the same element types. *)
Definition naive_two_field (T1 T2 : ctype) : ctype :=
  TClass "naive" false [] [T1; T2].

Definition sizeof_instantiation (i : instantiation) : option Z :=
  match i with
  | Accepted cls => Some (std.sizeof cls)
  | Rejected _ => None
  end.

(** The classes of test_pair_ebco.cpp. *)
Definition Empty1 : ctype := TClass "Empty1" false [] [].
Definition Empty2 : ctype := TClass "Empty2" false [] [].
Definition NonEmpty : ctype := TClass "NonEmpty" false [] [TInt].
Definition FinalEmpty : ctype := TClass "FinalEmpty" true [] [].

End class_templates.


(** ** pair_impl.hpp: what the four layouts compute *)

Module detail.

Section pair_impl_base.
Context {T1 T2 U1 U2 : Type}.

(** The slots' own constructors, selected by the forwarded arguments of
    the two-argument constructor template, and the exchange found for
    each element type by [using std::swap; swap(a, b)]. *)
Variable init1 : U1 -> T1.
Variable init2 : U2 -> T2.
Variable swap1 : T1 -> T1 -> T1 * T1.
Variable swap2 : T2 -> T2 -> T2 * T2.

(** Case 1 (pair_impl.hpp:47-84): two data members. *)
Record layout_members : Type :=
  { mm_first_ : T1; mm_second_ : T2 }.

(** Case 2 (pair_impl.hpp:90-126): [T1] is a private base, [second_] a member. *)
Record layout_first_elided : Type :=
  { em_base_T1 : T1; em_second_ : T2 }.

(** Case 3 (pair_impl.hpp:132-168): [T2] is a private base, [first_] a
    member; the base subobject precedes the member. *)
Record layout_second_elided : Type :=
  { me_base_T2 : T2; me_first_ : T1 }.

(** Case 4 (pair_impl.hpp:174-207): both are private bases. *)
Record layout_both_elided : Type :=
  { ee_base_T1 : T1; ee_base_T2 : T2 }.

Definition pair_impl_base (FirstEmpty SecondEmpty : bool) : Type :=
  match FirstEmpty, SecondEmpty with
  | false, false => layout_members
  | true, false => layout_first_elided
  | false, true => layout_second_elided
  | true, true => layout_both_elided
  end.

(** [pair_impl_base(U1&& u1, U2&& u2)]. *)
Definition construct (FirstEmpty SecondEmpty : bool) (u1 : U1) (u2 : U2)
  : pair_impl_base FirstEmpty SecondEmpty :=
  match FirstEmpty, SecondEmpty return pair_impl_base FirstEmpty SecondEmpty with
  | false, false => {| mm_first_ := init1 u1; mm_second_ := init2 u2 |}
  | true, false => {| em_base_T1 := init1 u1; em_second_ := init2 u2 |}
  | false, true => {| me_base_T2 := init2 u2; me_first_ := init1 u1 |}
  | true, true => {| ee_base_T1 := init1 u1; ee_base_T2 := init2 u2 |}
  end.

(** [first()]: [first_], or [*this] converted to [T1&]. *)
Definition first (FirstEmpty SecondEmpty : bool)
  : pair_impl_base FirstEmpty SecondEmpty -> T1 :=
  match FirstEmpty, SecondEmpty return pair_impl_base FirstEmpty SecondEmpty -> T1 with
  | false, false => mm_first_
  | true, false => em_base_T1
  | false, true => me_first_
  | true, true => ee_base_T1
  end.

(** [second()]: [second_], or [*this] converted to [T2&]. *)
Definition second (FirstEmpty SecondEmpty : bool)
  : pair_impl_base FirstEmpty SecondEmpty -> T2 :=
  match FirstEmpty, SecondEmpty return pair_impl_base FirstEmpty SecondEmpty -> T2 with
  | false, false => mm_second_
  | true, false => em_second_
  | false, true => me_base_T2
  | true, true => ee_base_T2
  end.

(** [swap(pair_impl_base& other)]: the [T1] slots are exchanged, then the
    [T2] slots; the result is the new [*this] and the new [other]. *)
Definition swap (FirstEmpty SecondEmpty : bool)
  : pair_impl_base FirstEmpty SecondEmpty -> pair_impl_base FirstEmpty SecondEmpty ->
    pair_impl_base FirstEmpty SecondEmpty * pair_impl_base FirstEmpty SecondEmpty :=
  match FirstEmpty, SecondEmpty
        return pair_impl_base FirstEmpty SecondEmpty ->
               pair_impl_base FirstEmpty SecondEmpty ->
               pair_impl_base FirstEmpty SecondEmpty * pair_impl_base FirstEmpty SecondEmpty
  with
  | false, false => fun this other =>
      let a := swap1 (mm_first_ this) (mm_first_ other) in
      let b := swap2 (mm_second_ this) (mm_second_ other) in
      ({| mm_first_ := fst a; mm_second_ := fst b |},
       {| mm_first_ := snd a; mm_second_ := snd b |})
  | true, false => fun this other =>
      let a := swap1 (em_base_T1 this) (em_base_T1 other) in
      let b := swap2 (em_second_ this) (em_second_ other) in
      ({| em_base_T1 := fst a; em_second_ := fst b |},
       {| em_base_T1 := snd a; em_second_ := snd b |})
  | false, true => fun this other =>
      let a := swap1 (me_first_ this) (me_first_ other) in
      let b := swap2 (me_base_T2 this) (me_base_T2 other) in
      ({| me_base_T2 := fst b; me_first_ := fst a |},
       {| me_base_T2 := snd b; me_first_ := snd a |})
  | true, true => fun this other =>
      let a := swap1 (ee_base_T1 this) (ee_base_T1 other) in
      let b := swap2 (ee_base_T2 this) (ee_base_T2 other) in
      ({| ee_base_T1 := fst a; ee_base_T2 := fst b |},
       {| ee_base_T1 := snd a; ee_base_T2 := snd b |})
  end.

(** [pair_impl<T1, T2>] (pair_impl.hpp:210-272) derives from the layout
    the policy picks and forwards [first], [second] and [swap] to it;
    [E1] and [E2] are the policy's answers for [T1] and [T2]. *)
Definition pair_impl (E1 E2 : bool) : Type := pair_impl_base E1 E2.

Definition pair_impl_swap (E1 E2 : bool) (this other : pair_impl E1 E2)
  : pair_impl E1 E2 * pair_impl E1 E2 :=
  swap E1 E2 this other.

(** *** The layout-free reading, in the spec's words

    A pair holds exactly two logical slots; swap is the member-wise
    exchange of the two logical values. *)
Definition logical_pair : Type := T1 * T2.

Definition member_wise_exchange (p q : logical_pair) : logical_pair * logical_pair :=
  ((fst (swap1 (fst p) (fst q)), fst (swap2 (snd p) (snd q))),
   (snd (swap1 (fst p) (fst q)), snd (swap2 (snd p) (snd q)))).

(** What a caller can read off a layout. *)
Definition observe {E1 E2 : bool} (x : pair_impl E1 E2) : logical_pair :=
  (first E1 E2 x, second E1 E2 x).

End pair_impl_base.

(** *** Writing through [first()] and [second()], and assignment *)

Section pair_impl_assignment.
Context {T1 T2 U1 U2 : Type}.

(** [x.first() = a]: the slot [first()] refers to takes the value [a]. *)
Definition set_first (FirstEmpty SecondEmpty : bool) (a : T1)
  : @pair_impl_base T1 T2 FirstEmpty SecondEmpty -> @pair_impl_base T1 T2 FirstEmpty SecondEmpty :=
  match FirstEmpty, SecondEmpty
        return @pair_impl_base T1 T2 FirstEmpty SecondEmpty ->
               @pair_impl_base T1 T2 FirstEmpty SecondEmpty
  with
  | false, false => fun x => {| mm_first_ := a; mm_second_ := mm_second_ x |}
  | true, false => fun x => {| em_base_T1 := a; em_second_ := em_second_ x |}
  | false, true => fun x => {| me_base_T2 := me_base_T2 x; me_first_ := a |}
  | true, true => fun x => {| ee_base_T1 := a; ee_base_T2 := ee_base_T2 x |}
  end.

(** [x.second() = b]. *)
Definition set_second (FirstEmpty SecondEmpty : bool) (b : T2)
  : @pair_impl_base T1 T2 FirstEmpty SecondEmpty -> @pair_impl_base T1 T2 FirstEmpty SecondEmpty :=
  match FirstEmpty, SecondEmpty
        return @pair_impl_base T1 T2 FirstEmpty SecondEmpty ->
               @pair_impl_base T1 T2 FirstEmpty SecondEmpty
  with
  | false, false => fun x => {| mm_first_ := mm_first_ x; mm_second_ := b |}
  | true, false => fun x => {| em_base_T1 := em_base_T1 x; em_second_ := b |}
  | false, true => fun x => {| me_base_T2 := b; me_first_ := me_first_ x |}
  | true, true => fun x => {| ee_base_T1 := ee_base_T1 x; ee_base_T2 := b |}
  end.

(** The element assignments [T1& = U1&] and [T2& = U2&]: the value the
    target has afterwards, from the value it had and the source's. *)
Variable assign1 : T1 -> U1 -> T1.
Variable assign2 : T2 -> U2 -> T2.

(** pair_impl.hpp:250-255, [pair_impl& operator=(pair_impl<U1, U2>& other)]:
    the target has the layout [(E1, E2)] its element types select, the
    source the layout [(F1, F2)] of its own. *)
Definition operator_assign_from (E1 E2 F1 F2 : bool)
    (this : @pair_impl T1 T2 E1 E2) (other : @pair_impl U1 U2 F1 F2)
  : @pair_impl T1 T2 E1 E2 :=
  let this1 := set_first E1 E2 (assign1 (first E1 E2 this) (first F1 F2 other)) this in
  set_second E1 E2 (assign2 (second E1 E2 this1) (second F1 F2 other)) this1.

End pair_impl_assignment.

End detail.

(** ** Objects, exceptions and [noexcept] *)

Module cxx.

(** Objects are told apart by their address. *)
Abbreviation loc := positive (only parsing).

(** The objects of one type that are alive, by address. *)
Abbreviation objects T := (gmap positive T) (only parsing).

(** What is thrown: the [what()] of a [std::runtime_error]. *)
Definition exception : Type := string.

(** How a call ends: it returns, it leaves by an exception, the program is
    ended by [std::terminate], or it touched an object that is not alive. *)
Inductive result (S A : Type) : Type :=
| Returns (a : A) (s : S)
| Throws (e : exception) (s : S)
| Terminates
| Undefined.

Arguments Returns {S A} _ _.
Arguments Throws {S A} _ _.
Arguments Terminates {S A}.
Arguments Undefined {S A}.

Definition M (S A : Type) : Type := S -> result S A.

#[global] Instance M_ret {S : Type} : MRet (M S) :=
  fun A a s => Returns a s.

#[global] Instance M_bind {S : Type} : MBind (M S) :=
  fun A B k c s =>
    match c s with
    | Returns a s' => k a s'
    | Throws e s' => Throws e s'
    | Terminates => Terminates
    | Undefined => Undefined
    end.

Definition throw {S A : Type} (e : exception) : M S A := fun s => Throws e s.

(** A function declared [noexcept]: an exception that would leave it ends
    the program instead. *)
Definition noexcept {S A : Type} (body : M S A) : M S A :=
  fun s =>
    match body s with
    | Throws _ _ => Terminates
    | r => r
    end.

(** The operations of an element type that the pair calls. The first
    address is the object constructed or assigned to, the second its source. *)
Record element (T : Type) : Type :=
  { copy_construct : loc -> loc -> M (objects T) unit;
    move_construct : loc -> loc -> M (objects T) unit;
    copy_assign : loc -> loc -> M (objects T) unit;
    move_assign : loc -> loc -> M (objects T) unit;
    destroy : loc -> M (objects T) unit;
    (** what [using std::swap; swap(a, b)] resolves to *)
    swap : loc -> loc -> M (objects T) unit }.

Arguments copy_construct {T} _ _ _ _.
Arguments move_construct {T} _ _ _ _.
Arguments copy_assign {T} _ _ _ _.
Arguments move_assign {T} _ _ _ _.
Arguments destroy {T} _ _ _.
Arguments swap {T} _ _ _ _.

(** Modelled from the C++ standard, not from the repository: the generic
    [std::swap], [T tmp(std::move(a)); a = std::move(b); b = std::move(tmp);],
    with [tmp] a fresh automatic object that dies at the end. *)
Definition std_swap {T : Type}
    (move_construct move_assign : loc -> loc -> M (objects T) unit)
    (destroy : loc -> M (objects T) unit) (a b : loc) : M (objects T) unit :=
  fun m =>
    let tmp : loc := fresh (dom m : gset loc) in
    (move_construct tmp a ;; move_assign a b ;; move_assign b tmp ;; destroy tmp) m.

Section regular.
Context {T : Type}.

(** A value type: a copy takes the source's value, a move takes it and
    leaves the source in the type's moved-from state, and [x = std::move(x)]
    does to [x] whatever the type's move assignment does to itself. *)
Variable moved_from : T -> T.
Variable self_moved : T -> T.

Definition regular_copy_construct (this src : loc) : M (objects T) unit :=
  fun m =>
    match m !! src with
    | Some v => Returns tt (<[this := v]> m)
    | None => Undefined
    end.

Definition regular_move_construct (this src : loc) : M (objects T) unit :=
  fun m =>
    match m !! src with
    | Some v => Returns tt (<[this := v]> (<[src := moved_from v]> m))
    | None => Undefined
    end.

Definition regular_copy_assign (this src : loc) : M (objects T) unit :=
  fun m =>
    match m !! this, m !! src with
    | Some _, Some v => Returns tt (<[this := v]> m)
    | _, _ => Undefined
    end.

Definition regular_move_assign (this src : loc) : M (objects T) unit :=
  fun m =>
    match m !! this, m !! src with
    | Some old, Some v =>
        if decide (this = src) then Returns tt (<[this := self_moved old]> m)
        else Returns tt (<[this := v]> (<[src := moved_from v]> m))
    | _, _ => Undefined
    end.

Definition regular_destroy (this : loc) : M (objects T) unit :=
  fun m =>
    match m !! this with
    | Some _ => Returns tt (delete this m)
    | None => Undefined
    end.

Definition regular : element T :=
  {| copy_construct := regular_copy_construct;
     move_construct := regular_move_construct;
     copy_assign := regular_copy_assign;
     move_assign := regular_move_assign;
     destroy := regular_destroy;
     swap := std_swap regular_move_construct regular_move_assign regular_destroy |}.

End regular.

(** [int]: a move is a copy. *)
Definition int_element : element Z := regular (fun v => v) (fun v => v).

(** A [std::vector<int>]-like type: a move empties the source, and so does
    a move assignment from itself. *)
Definition vector_element : element (list Z) := regular (fun _ => []) (fun _ => []).

(** [ThrowingType] of test/integration/test_with_std.cpp:34-60, its
    [value], with the static flag [should_throw] as a parameter. The class
    declares a copy constructor and a copy assignment, hence has no move
    operations of its own: an rvalue is copied. *)
Section ThrowingType.
Variable should_throw : bool.

Definition ThrowingType_copy_construct (this src : loc) : M (objects Z) unit :=
  fun m =>
    match m !! src with
    | Some v =>
        if should_throw then Throws "Copy failed"%string m
        else Returns tt (<[this := v]> m)
    | None => Undefined
    end.

Definition ThrowingType_copy_assign (this src : loc) : M (objects Z) unit :=
  fun m =>
    match m !! this, m !! src with
    | Some _, Some v =>
        if should_throw then Throws "Assignment failed"%string m
        else Returns tt (<[this := v]> m)
    | _, _ => Undefined
    end.

Definition ThrowingType : element Z :=
  {| copy_construct := ThrowingType_copy_construct;
     move_construct := ThrowingType_copy_construct;
     copy_assign := ThrowingType_copy_assign;
     move_assign := ThrowingType_copy_assign;
     destroy := regular_destroy;
     swap := std_swap ThrowingType_copy_construct ThrowingType_copy_assign regular_destroy |}.

End ThrowingType.

(** Modelled from the C++ standard, not from the repository: the values of
    [double] that hold an integer, and a NaN, with the built-in
    [operator==], for which a NaN is equal to nothing, itself included. *)
Inductive double : Type :=
| Number (x : Z)
| NaN.

Definition double_eq (a b : double) : bool :=
  match a, b with
  | Number x, Number y => x =? y
  | _, _ => false
  end.

End cxx.

(** ** pair.hpp: the value a pair holds, and the functions that only read it *)

Module my_stl.

(** pair.hpp:45-54: the two public data members. *)
Record pair (T1 T2 : Type) : Type := mk_pair { first : T1; second : T2 }.

Arguments mk_pair {T1 T2} _ _.
Arguments first {T1 T2} _.
Arguments second {T1 T2} _.

(** [std::pair<U1, U2>], the standard library's own two-field struct. *)
Record std_pair (U1 U2 : Type) : Type := mk_std_pair { std_first : U1; std_second : U2 }.

Arguments mk_std_pair {U1 U2} _ _.
Arguments std_first {U1 U2} _.
Arguments std_second {U1 U2} _.

Section comparison.
Context {T1 T2 : Type}.

(** [operator==] and [operator<] of the element types. *)
Variable eq1 : T1 -> T1 -> bool.
Variable eq2 : T2 -> T2 -> bool.
Variable lt1 : T1 -> T1 -> bool.
Variable lt2 : T2 -> T2 -> bool.

(** pair.hpp:183-186. *)
Definition operator_eq (lhs rhs : pair T1 T2) : bool :=
  eq1 (first lhs) (first rhs) && eq2 (second lhs) (second rhs).

(** pair.hpp:188-191. *)
Definition operator_ne (lhs rhs : pair T1 T2) : bool :=
  negb (operator_eq lhs rhs).

(** pair.hpp:193-198. *)
Definition operator_lt (lhs rhs : pair T1 T2) : bool :=
  if lt1 (first lhs) (first rhs) then true
  else if lt1 (first rhs) (first lhs) then false
  else lt2 (second lhs) (second rhs).

(** pair.hpp:200-213. *)
Definition operator_le (lhs rhs : pair T1 T2) : bool := negb (operator_lt rhs lhs).
Definition operator_gt (lhs rhs : pair T1 T2) : bool := operator_lt rhs lhs.
Definition operator_ge (lhs rhs : pair T1 T2) : bool := negb (operator_lt lhs rhs).

End comparison.

(** The named requirement the ordered containers put on a comparison. *)
Section strict_weak_ordering.
Context {A : Type}.
Variable lt : A -> A -> bool.

Definition incomparable (x y : A) : Prop := lt x y = false /\ lt y x = false.

Record strict_weak_order : Prop :=
  { swo_irreflexive : forall x, lt x x = false;
    swo_transitive : forall x y z, lt x y = true -> lt y z = true -> lt x z = true;
    swo_incomparable_transitive :
      forall x y z, incomparable x y -> incomparable y z -> incomparable x z }.

End strict_weak_ordering.

Section hash.
Context {T1 T2 : Type}.

(** [std::size_t] is an unsigned integer of [size_t_bits] bits. *)
Variable size_t_bits : Z.

Definition size_t_modulus : Z := 2 ^ size_t_bits.

(** [a << n] and [a ^ b] on [std::size_t]: a left shift drops the bits that
    leave the word, an exclusive or of two words is a word again. *)
Definition size_t_shl (a n : Z) : Z := Z.shiftl a n mod size_t_modulus.
Definition size_t_xor (a b : Z) : Z := Z.lxor a b.

(** [std::hash<T1>{}] and [std::hash<T2>{}]. *)
Variable hash1 : T1 -> Z.
Variable hash2 : T2 -> Z.

(** pair.hpp:347-354. *)
Definition hash (p : pair T1 T2) : Z :=
  let h1 := hash1 (first p) in
  let h2 := hash2 (second p) in
  size_t_xor h1 (size_t_shl h2 1).

End hash.

Section conversion.
Context {T1 T2 U1 U2 : Type}.

(** The element constructors the conversions call: [U1(const T1&)] and
    [U2(const T2&)] on the way out, [T1(const U1&)] and [T2(const U2&)] on
    the way back. *)
Variable out1 : T1 -> U1.
Variable out2 : T2 -> U2.
Variable back1 : U1 -> T1.
Variable back2 : U2 -> T2.

(** pair.hpp:157-160, [operator std::pair<U1, U2>() const &]. *)
Definition to_std_pair (p : pair T1 T2) : std_pair U1 U2 :=
  mk_std_pair (out1 (first p)) (out2 (second p)).

(** pair.hpp:87-88, [pair(const std::pair<U1, U2>& other)]. *)
Definition from_std_pair (other : std_pair U1 U2) : pair T1 T2 :=
  mk_pair (back1 (std_first other)) (back2 (std_second other)).

End conversion.

(** Copying an object of a value type yields the value copied. *)
Definition copy {T : Type} (x : T) : T := x.

(** The round trip at the conversion operator's default template arguments,
    [U1 = T1] and [U2 = T2]: every element constructor is a copy constructor. *)
Definition round_trip {T1 T2 : Type} (p : pair T1 T2) : pair T1 T2 :=
  from_std_pair copy copy (to_std_pair copy copy p).

(** *** The member functions that construct, assign and exchange *)

Section members.
Import cxx.
Context {T1 T2 : Type}.

(** The live objects of the two element types. The [first] member of the
    pair at address [p] is the [T1] object at [p], its [second] member the
    [T2] object at [p]; so it is for a [std::pair<T1, T2>]. *)
Record heap : Type := mk_heap { objects1 : objects T1; objects2 : objects T2 }.

Definition on_first {A : Type} (c : M (objects T1) A) : M heap A :=
  fun h =>
    match c (objects1 h) with
    | Returns a m => Returns a (mk_heap m (objects2 h))
    | Throws e m => Throws e (mk_heap m (objects2 h))
    | Terminates => Terminates
    | Undefined => Undefined
    end.

Definition on_second {A : Type} (c : M (objects T2) A) : M heap A :=
  fun h =>
    match c (objects2 h) with
    | Returns a m => Returns a (mk_heap (objects1 h) m)
    | Throws e m => Throws e (mk_heap (objects1 h) m)
    | Terminates => Terminates
    | Undefined => Undefined
    end.

(** A constructor that fails after [first] was initialised: [first] is
    destroyed, and the exception goes on. *)
Definition unwinding {A : Type} (body : M heap A) (cleanup : M heap unit) : M heap A :=
  fun h =>
    match body h with
    | Throws e h' =>
        match cleanup h' with
        | Returns _ h'' => Throws e h''
        | Throws _ _ => Terminates
        | Terminates => Terminates
        | Undefined => Undefined
        end
    | r => r
    end.

(** The value of the pair at [p]. *)
Definition load (p : loc) (h : heap) : option (pair T1 T2) :=
  match objects1 h !! p, objects2 h !! p with
  | Some a, Some b => Some (mk_pair a b)
  | _, _ => None
  end.

Variable E1 : element T1.
Variable E2 : element T2.

(** pair.hpp:64, [pair(const T1& x, const T2& y) : first(x), second(y)]. *)
Definition construct_from_values (this x y : loc) : M heap unit :=
  on_first (copy_construct E1 this x) ;;
  unwinding (on_second (copy_construct E2 this y)) (on_first (destroy E1 this)).

(** pair.hpp:67, [pair(T1&& x, T2&& y) noexcept]. *)
Definition construct_from_rvalues (this x y : loc) : M heap unit :=
  noexcept
    (on_first (move_construct E1 this x) ;;
     unwinding (on_second (move_construct E2 this y)) (on_first (destroy E1 this))).

(** pair.hpp:74, [pair(const pair&) = default]: member-wise copy. *)
Definition construct_copy (this other : loc) : M heap unit :=
  on_first (copy_construct E1 this other) ;;
  unwinding (on_second (copy_construct E2 this other)) (on_first (destroy E1 this)).

(** pair.hpp:87-88, [pair(const std::pair<U1, U2>& other)], at [U1 = T1], [U2 = T2]. *)
Definition construct_from_std (this other : loc) : M heap unit :=
  on_first (copy_construct E1 this other) ;;
  unwinding (on_second (copy_construct E2 this other)) (on_first (destroy E1 this)).

(** pair.hpp:90-91, [pair(std::pair<U1, U2>&& other) noexcept], at
    [U1 = T1], [U2 = T2], where [std::forward<U1>] is [std::move]. *)
Definition construct_from_std_rvalue (this other : loc) : M heap unit :=
  noexcept
    (on_first (move_construct E1 this other) ;;
     unwinding (on_second (move_construct E2 this other)) (on_first (destroy E1 this))).

(** pair.hpp:98-104, [pair& operator=(const pair& other)]. *)
Definition operator_assign (this other : loc) : M heap unit :=
  if decide (this <> other) then
    on_first (copy_assign E1 this other) ;;
    on_second (copy_assign E2 this other)
  else mret tt.

(** pair.hpp:107-113, [pair& operator=(pair&& other) noexcept]. *)
Definition operator_assign_move (this other : loc) : M heap unit :=
  noexcept
    (if decide (this <> other) then
       on_first (move_assign E1 this other) ;;
       on_second (move_assign E2 this other)
     else mret tt).

(** pair.hpp:131-136, [pair& operator=(std::pair<U1, U2>& other)]. *)
Definition operator_assign_from_std (this other : loc) : M heap unit :=
  on_first (copy_assign E1 this other) ;;
  on_second (copy_assign E2 this other).

(** pair.hpp:138-143, [pair& operator=(std::pair<U1, U2>&& other)]. *)
Definition operator_assign_from_std_rvalue (this other : loc) : M heap unit :=
  on_first (move_assign E1 this other) ;;
  on_second (move_assign E2 this other).

(** pair.hpp:150-154, [void swap(pair& other) noexcept]. *)
Definition swap (this other : loc) : M heap unit :=
  noexcept
    (on_first (cxx.swap E1 this other) ;;
     on_second (cxx.swap E2 this other)).

(** pair.hpp:290-293, the free [swap(lhs, rhs)], whose exception
    specification [noexcept(noexcept(lhs.swap(rhs)))] is [noexcept(true)]. *)
Definition swap_free (lhs rhs : loc) : M heap unit :=
  noexcept (swap lhs rhs).

End members.

(** What an element exchange has to do for two live objects, aliased or not. *)
Definition exchanges {T : Type} (E : cxx.element T) : Prop :=
  forall (m : cxx.objects T) (a b : cxx.loc) (va vb : T),
    m !! a = Some va -> m !! b = Some vb ->
    cxx.swap E a b m = cxx.Returns tt (<[b := va]> (<[a := vb]> m)).


(** Two [pair<ThrowingType, int>] objects, [(42, 100)] at address 1 and
    [(7, 200)] at address 2, as in [test_exception_safety]. *)
Definition throwing_heap : @heap Z Z :=
  mk_heap {[ 1%positive := 42; 2%positive := 7 ]}
          {[ 1%positive := 100; 2%positive := 200 ]}.

(** Two [pair<std::vector<int>, int>] objects. *)
Definition vector_heap : @heap (list Z) Z :=
  mk_heap {[ 1%positive := [1; 2]; 2%positive := [3] ]}
          {[ 1%positive := 100; 2%positive := 7 ]}.

(** *** Comparison with [std::pair] *)

Section mixed_comparison.
Context {T1 T2 U1 U2 : Type}.

(** The element comparisons with the pair's element on the left
    ([T1 == U1], [T1 < U1], ...) and with it on the right ([U1 == T1], ...). *)
Variable eq1 : T1 -> U1 -> bool.
Variable eq2 : T2 -> U2 -> bool.
Variable eq1' : U1 -> T1 -> bool.
Variable eq2' : U2 -> T2 -> bool.
Variable lt1 : T1 -> U1 -> bool.
Variable lt2 : T2 -> U2 -> bool.
Variable lt1' : U1 -> T1 -> bool.
Variable lt2' : U2 -> T2 -> bool.

(** pair.hpp:218-233, the pair on the left. *)
Definition operator_eq_std (lhs : pair T1 T2) (rhs : std_pair U1 U2) : bool :=
  eq1 (first lhs) (std_first rhs) && eq2 (second lhs) (std_second rhs).

Definition operator_ne_std (lhs : pair T1 T2) (rhs : std_pair U1 U2) : bool :=
  negb (operator_eq_std lhs rhs).

Definition operator_lt_std (lhs : pair T1 T2) (rhs : std_pair U1 U2) : bool :=
  if lt1 (first lhs) (std_first rhs) then true
  else if lt1' (std_first rhs) (first lhs) then false
  else lt2 (second lhs) (std_second rhs).

(** pair.hpp:253-268, [std::pair] on the left. *)
Definition std_operator_eq (lhs : std_pair U1 U2) (rhs : pair T1 T2) : bool :=
  eq1' (std_first lhs) (first rhs) && eq2' (std_second lhs) (second rhs).

Definition std_operator_ne (lhs : std_pair U1 U2) (rhs : pair T1 T2) : bool :=
  negb (std_operator_eq lhs rhs).

Definition std_operator_lt (lhs : std_pair U1 U2) (rhs : pair T1 T2) : bool :=
  if lt1' (std_first lhs) (first rhs) then true
  else if lt1 (first rhs) (std_first lhs) then false
  else lt2' (std_second lhs) (second rhs).

(** pair.hpp:235-248: each is written with [<] of the operands swapped or
    negated, which for swapped operands is the operator of the other group. *)
Definition operator_le_std (lhs : pair T1 T2) (rhs : std_pair U1 U2) : bool :=
  negb (std_operator_lt rhs lhs).
Definition operator_gt_std (lhs : pair T1 T2) (rhs : std_pair U1 U2) : bool :=
  std_operator_lt rhs lhs.
Definition operator_ge_std (lhs : pair T1 T2) (rhs : std_pair U1 U2) : bool :=
  negb (operator_lt_std lhs rhs).

(** pair.hpp:270-283. *)
Definition std_operator_le (lhs : std_pair U1 U2) (rhs : pair T1 T2) : bool :=
  negb (operator_lt_std rhs lhs).
Definition std_operator_gt (lhs : std_pair U1 U2) (rhs : pair T1 T2) : bool :=
  operator_lt_std rhs lhs.
Definition std_operator_ge (lhs : std_pair U1 U2) (rhs : pair T1 T2) : bool :=
  negb (std_operator_lt lhs rhs).

End mixed_comparison.

(** *** Tuple access *)

(** pair.hpp:310-312, [std::tuple_size<my_stl::pair<T1, T2>>]. *)
Definition tuple_size : nat := 2.

(** pair.hpp:326-338, [std::get<I>(p)]: [None] stands for the failed
    [static_assert(I < 2, ...)]; the result is [p.first] for [I == 0] and
    [p.second] otherwise. *)
Definition get {T1 T2 : Type} (I : nat) (p : pair T1 T2) : option (T1 + T2) :=
  if (I <? 2)%nat then
    Some (if (I =? 0)%nat then inl (first p) else inr (second p))
  else None.

End my_stl.

(** ** traits.hpp: type computations, and the types [make_pair] names *)

Module traits.

(** Modelled from the C++ standard, not from the repository:
    [std::remove_reference_t] and [std::decay_t] on the descriptors, where
    an array decays to a pointer to its element. *)
Definition remove_reference_t (T : ctype) : ctype :=
  match T with
  | TLRef U => U
  | _ => T
  end.

Definition decay_t (T : ctype) : ctype :=
  match remove_reference_t T with
  | TArray elem _ => TPtr elem
  | U => U
  end.

Definition is_lvalue_reference_v (T : ctype) : bool :=
  match T with
  | TLRef _ => true
  | _ => false
  end.

(** [std::reference_wrapper<T>], a class that holds a pointer to [T]. *)
Definition reference_wrapper (T : ctype) : ctype :=
  TClass "std::reference_wrapper" false [] [TPtr T].

(** traits.hpp:87-94, [unwrap_reference]: the primary template leaves a
    type alone, the specialisation turns [std::reference_wrapper<T>] into [T&]. *)
Definition unwrap_reference_t (T : ctype) : ctype :=
  match T with
  | TClass name false [] [TPtr U] =>
      if String.eqb name "std::reference_wrapper" then TLRef U else T
  | _ => T
  end.

(** traits.hpp:96-97; [make_pair(T1&& t, T2&& u)] (pair.hpp:172-177)
    returns the pair of [unwrap_ref_decay_t<T1>] and [unwrap_ref_decay_t<T2>]. *)
Definition unwrap_ref_decay_t (T : ctype) : ctype :=
  unwrap_reference_t (decay_t T).

(** traits.hpp:240-252: [make_index_sequence_helper<N, Ints...>] derives
    from [make_index_sequence_helper<N - 1, N - 1, Ints...>], and at [N = 0]
    its [type] is [index_sequence<Ints...>]. *)
Fixpoint make_index_sequence_helper (N : nat) (Ints : list nat) : list nat :=
  match N with
  | O => Ints
  | S N' => make_index_sequence_helper N' (N' :: Ints)
  end.

Definition make_index_sequence (N : nat) : list nat :=
  make_index_sequence_helper N [].

(** pair.hpp:314-318, [std::tuple_element<I, my_stl::pair<T1, T2>>]. *)
Definition tuple_element (I : nat) (T1 T2 : ctype) : instantiation :=
  if (I <? 2)%nat then Accepted (if (I =? 0)%nat then T1 else T2)
  else Rejected "Index out of bounds for pairs".

End traits.

(** * Properties *)

(** ** The four layouts *)

Section layout_equivalence.
Context {T1 T2 U1 U2 : Type}.
Variable init1 : U1 -> T1.
Variable init2 : U2 -> T2.
Variable swap1 : T1 -> T1 -> T1 * T1.
Variable swap2 : T2 -> T2 -> T2 * T2.

Lemma observe_construct (E1 E2 : bool) (u1 : U1) (u2 : U2) :
  detail.observe (detail.construct init1 init2 E1 E2 u1 u2) = (init1 u1, init2 u2).
Proof. destruct E1, E2; reflexivity. Qed.

Lemma observe_swap (E1 E2 : bool) (x y : detail.pair_impl E1 E2) :
  (detail.observe (fst (detail.pair_impl_swap swap1 swap2 E1 E2 x y)),
   detail.observe (snd (detail.pair_impl_swap swap1 swap2 E1 E2 x y)))
  = detail.member_wise_exchange swap1 swap2 (detail.observe x) (detail.observe y).
Proof. destruct E1, E2; reflexivity. Qed.

(** Every layout holds every logical pair, so [observe] loses nothing. *)
Lemma observe_surjective (E1 E2 : bool) (a : T1) (b : T2) :
  exists x : @detail.pair_impl T1 T2 E1 E2, detail.observe x = (a, b).
Proof.
  destruct E1, E2.
  - exists {| detail.ee_base_T1 := a; detail.ee_base_T2 := b |}; reflexivity.
  - exists {| detail.em_base_T1 := a; detail.em_second_ := b |}; reflexivity.
  - exists {| detail.me_base_T2 := b; detail.me_first_ := a |}; reflexivity.
  - exists {| detail.mm_first_ := a; detail.mm_second_ := b |}; reflexivity.
Qed.

Lemma observe_injective (E1 E2 : bool) (x y : @detail.pair_impl T1 T2 E1 E2) :
  detail.observe x = detail.observe y -> x = y.
Proof.
  destruct E1, E2; destruct x, y; unfold detail.observe; simpl;
    intros H; injection H as -> ->; reflexivity.
Qed.

(** C1. Whatever layout the policy selects, constructing from [(u1, u2)]
    and reading [first()] and [second()] gives the two values the slots'
    constructors make of [u1] and [u2], and [swap] is the member-wise
    exchange of the logical values; hence any two of the four layouts
    [(E1, E2)] and [(F1, F2)] show a caller the same values after
    construction and after a swap. *)
Theorem layouts_observably_equivalent
    (E1 E2 F1 F2 : bool) (u1 v1 : U1) (u2 v2 : U2) :
  let x := detail.construct init1 init2 E1 E2 u1 u2 in
  let y := detail.construct init1 init2 E1 E2 v1 v2 in
  let x' := detail.construct init1 init2 F1 F2 u1 u2 in
  let y' := detail.construct init1 init2 F1 F2 v1 v2 in
  detail.first E1 E2 x = init1 u1 /\
  detail.second E1 E2 x = init2 u2 /\
  detail.observe x = detail.observe x' /\
  (detail.observe (fst (detail.pair_impl_swap swap1 swap2 E1 E2 x y)),
   detail.observe (snd (detail.pair_impl_swap swap1 swap2 E1 E2 x y)))
  = detail.member_wise_exchange swap1 swap2 (init1 u1, init2 u2) (init1 v1, init2 v2) /\
  detail.observe (fst (detail.pair_impl_swap swap1 swap2 E1 E2 x y))
  = detail.observe (fst (detail.pair_impl_swap swap1 swap2 F1 F2 x' y')) /\
  detail.observe (snd (detail.pair_impl_swap swap1 swap2 E1 E2 x y))
  = detail.observe (snd (detail.pair_impl_swap swap1 swap2 F1 F2 x' y')).
Proof.
  intros x y x' y'.
  assert (Hx : detail.observe x = (init1 u1, init2 u2)) by apply observe_construct.
  assert (Hx' : detail.observe x' = (init1 u1, init2 u2)) by apply observe_construct.
  assert (Hy : detail.observe y = (init1 v1, init2 v2)) by apply observe_construct.
  assert (Hy' : detail.observe y' = (init1 v1, init2 v2)) by apply observe_construct.
  pose proof (observe_swap E1 E2 x y) as HE.
  pose proof (observe_swap F1 F2 x' y') as HF.
  rewrite Hx, Hy in HE. rewrite Hx', Hy' in HF.
  repeat split.
  - exact (f_equal fst Hx).
  - exact (f_equal snd Hx).
  - congruence.
  - exact HE.
  - transitivity (fst (detail.member_wise_exchange swap1 swap2
                         (init1 u1, init2 u2) (init1 v1, init2 v2))).
    + exact (f_equal fst HE).
    + symmetry. exact (f_equal fst HF).
  - transitivity (snd (detail.member_wise_exchange swap1 swap2
                         (init1 u1, init2 u2) (init1 v1, init2 v2))).
    + exact (f_equal snd HE).
    + symmetry. exact (f_equal snd HF).
Qed.

End layout_equivalence.

(** With the generic [std::swap] of values the two pairs trade places. *)
Lemma member_wise_exchange_std {T1 T2 : Type} (p q : @detail.logical_pair T1 T2) :
  detail.member_wise_exchange (fun a b => (b, a)) (fun a b => (b, a)) p q = (q, p).
Proof. destruct p, q; reflexivity. Qed.

(** ** Sizes and rejected instantiations *)

Lemma sizeof_positive (T : ctype) : 1 <= std.sizeof T.
Proof.
  unfold std.sizeof.
  induction T as [ | | | ? _ | ? ? ? ? | ? _ | elem IH bound]; simpl; lia.
Qed.

(** The façade has the members of the naive struct and nothing else, so on
    any element types it has the naive struct's size. *)
Lemma pair_size_is_naive_size (T1 T2 : ctype) :
  class_templates.sizeof_instantiation (class_templates.pair T1 T2)
  = Some (std.sizeof (class_templates.naive_two_field T1 T2)).
Proof. reflexivity. Qed.

(** The layouts of pair_impl.hpp do elide: [pair_impl<Empty1, int>] has the
    size of an [int], [pair_impl<Empty1, Empty2>] is one byte, and a [final]
    empty class is kept as a member. *)
Lemma pair_impl_sizes :
  class_templates.sizeof_instantiation
    (class_templates.pair_impl class_templates.Empty1 TInt) = Some 4 /\
  class_templates.sizeof_instantiation
    (class_templates.pair_impl TInt class_templates.Empty1) = Some 4 /\
  class_templates.sizeof_instantiation
    (class_templates.pair_impl class_templates.Empty1 class_templates.Empty2) = Some 1 /\
  class_templates.sizeof_instantiation
    (class_templates.pair_impl class_templates.FinalEmpty TInt) = Some 8.
Proof. repeat split; reflexivity. Qed.

(** C2. The size of [pair<Empty1, int>] is 8, within [sizeof(int) +
    alignof(int)] as test_pair_ebco.cpp asserts, but it is the size of the
    naive two-field struct, not strictly less; the size of
    [pair<Empty1, Empty2>] is 2, again the naive struct's size. The claim's
    strict inequalities fail on [my_stl::pair]. *)
Theorem pair_of_empty_is_not_smaller_than_naive :
  class_templates.is_empty_and_non_final_v class_templates.Empty1 = true /\
  class_templates.is_empty_and_non_final_v class_templates.Empty2 = true /\
  class_templates.sizeof_instantiation
    (class_templates.pair class_templates.Empty1 TInt) = Some 8 /\
  std.sizeof (class_templates.naive_two_field class_templates.Empty1 TInt) = 8 /\
  8 <= std.sizeof TInt + std.alignof TInt /\
  class_templates.sizeof_instantiation
    (class_templates.pair class_templates.Empty1 class_templates.Empty2) = Some 2 /\
  std.sizeof (class_templates.naive_two_field
                class_templates.Empty1 class_templates.Empty2) = 2.
Proof. repeat split; reflexivity || (vm_compute; discriminate). Qed.

(** The array specialisation of [pair_impl] rejects every pair of arrays. *)
Lemma pair_impl_rejects_two_arrays (E1 E2 : ctype) (N1 N2 : positive) :
  class_templates.pair_impl (TArray E1 N1) (TArray E2 N2)
  = Rejected "Arrays cannot be used as pair members directly.".
Proof.
  unfold class_templates.pair_impl; simpl.
  pose proof (sizeof_positive E1) as H.
  destruct (Z.eqb_spec (std.sizeof E1) 0) as [H0 | _]; [lia | reflexivity].
Qed.

(** C4. An array in one slot only is not rejected: [pair_impl<int[3], int>]
    selects the primary template and names a class with an [int[3]] member,
    and so does [pair_impl<int, int[3]>]; the façade [pair] has no check at
    all, and accepts an array in either slot and in both. *)
Theorem array_element_is_accepted :
  class_templates.pair_impl (TArray TInt 3) TInt
  = Accepted (TClass "pair_impl" false
                [TClass "pair_impl_base" false [] [TArray TInt 3; TInt]] []) /\
  class_templates.pair_impl TInt (TArray TInt 3)
  = Accepted (TClass "pair_impl" false
                [TClass "pair_impl_base" false [] [TInt; TArray TInt 3]] []) /\
  class_templates.pair (TArray TInt 3) TInt
  = Accepted (TClass "pair" false [] [TArray TInt 3; TInt]) /\
  class_templates.pair TInt (TArray TInt 3)
  = Accepted (TClass "pair" false [] [TInt; TArray TInt 3]) /\
  class_templates.pair (TArray TInt 3) (TArray TChar 2)
  = Accepted (TClass "pair" false [] [TArray TInt 3; TArray TChar 2]).
Proof. repeat split; reflexivity. Qed.

(** ** Equality and ordering *)

Section comparison_facts.
Context {T1 T2 : Type}.
Variable eq1 : T1 -> T1 -> bool.
Variable eq2 : T2 -> T2 -> bool.

(** C5. [p == q] holds exactly when [p.first == q.first] and
    [p.second == q.second] hold, and [p != q] holds exactly when [p == q]
    does not. *)
Theorem equality_is_pairwise (p q : my_stl.pair T1 T2) :
  (my_stl.operator_eq eq1 eq2 p q = true <->
     eq1 (my_stl.first p) (my_stl.first q) = true /\
     eq2 (my_stl.second p) (my_stl.second q) = true) /\
  (my_stl.operator_ne eq1 eq2 p q = true <->
     my_stl.operator_eq eq1 eq2 p q <> true).
Proof.
  unfold my_stl.operator_ne, my_stl.operator_eq. split.
  - apply andb_true_iff.
  - rewrite negb_true_iff. symmetry. apply not_true_iff_false.
Qed.

End comparison_facts.

(** Consequences of a strict weak ordering that the lexicographic proof uses. *)
Section strict_weak_order_facts.
Context {A : Type}.
Variable lt : A -> A -> bool.
Hypothesis Hlt : my_stl.strict_weak_order lt.

Lemma swo_asymmetric (x y : A) : lt x y = true -> lt y x = false.
Proof.
  intros Hxy. destruct (lt y x) eqn:Hyx; [|reflexivity].
  pose proof (my_stl.swo_transitive lt Hlt x y x Hxy Hyx) as Hxx.
  rewrite (my_stl.swo_irreflexive lt Hlt x) in Hxx. discriminate.
Qed.

Lemma incomparable_sym (x y : A) :
  my_stl.incomparable lt x y -> my_stl.incomparable lt y x.
Proof. intros [H1 H2]; split; assumption. Qed.

Lemma swo_lt_incomparable (x y z : A) :
  lt x y = true -> my_stl.incomparable lt y z -> lt x z = true.
Proof.
  intros Hxy Hyz. destruct (lt x z) eqn:Hxz; [reflexivity|exfalso].
  destruct (lt z x) eqn:Hzx.
  - pose proof (my_stl.swo_transitive lt Hlt z x y Hzx Hxy) as Hzy.
    destruct Hyz as [_ Hzy']. congruence.
  - assert (Hxy' : my_stl.incomparable lt x y).
    { apply (my_stl.swo_incomparable_transitive lt Hlt x z y).
      - split; assumption.
      - apply incomparable_sym, Hyz. }
    destruct Hxy' as [Hxy' _]. congruence.
Qed.

Lemma swo_incomparable_lt (x y z : A) :
  my_stl.incomparable lt x y -> lt y z = true -> lt x z = true.
Proof.
  intros Hxy Hyz. destruct (lt x z) eqn:Hxz; [reflexivity|exfalso].
  destruct (lt z x) eqn:Hzx.
  - pose proof (my_stl.swo_transitive lt Hlt y z x Hyz Hzx) as Hyx.
    destruct Hxy as [_ Hyx']. congruence.
  - assert (Hyz' : my_stl.incomparable lt y z).
    { apply (my_stl.swo_incomparable_transitive lt Hlt y x z).
      - apply incomparable_sym, Hxy.
      - split; assumption. }
    destruct Hyz' as [Hyz' _]. congruence.
Qed.

End strict_weak_order_facts.

Section ordering_facts.
Context {T1 T2 : Type}.
Variable lt1 : T1 -> T1 -> bool.
Variable lt2 : T2 -> T2 -> bool.

Lemma operator_lt_first_less (p q : my_stl.pair T1 T2) :
  lt1 (my_stl.first p) (my_stl.first q) = true -> my_stl.operator_lt lt1 lt2 p q = true.
Proof. unfold my_stl.operator_lt. intros ->. reflexivity. Qed.

Lemma operator_lt_first_tied (p q : my_stl.pair T1 T2) :
  lt1 (my_stl.first p) (my_stl.first q) = false ->
  lt1 (my_stl.first q) (my_stl.first p) = false ->
  my_stl.operator_lt lt1 lt2 p q = lt2 (my_stl.second p) (my_stl.second q).
Proof. unfold my_stl.operator_lt. intros -> ->. reflexivity. Qed.

(** What [p < q] says about the slots, whatever the element orderings are. *)
Lemma operator_lt_true_inv (p q : my_stl.pair T1 T2) :
  my_stl.operator_lt lt1 lt2 p q = true ->
  lt1 (my_stl.first p) (my_stl.first q) = true \/
  (my_stl.incomparable lt1 (my_stl.first p) (my_stl.first q) /\
   lt2 (my_stl.second p) (my_stl.second q) = true).
Proof.
  unfold my_stl.operator_lt, my_stl.incomparable.
  destruct (lt1 (my_stl.first p) (my_stl.first q)); [left; reflexivity|].
  destruct (lt1 (my_stl.first q) (my_stl.first p)); [discriminate|].
  intros H; right; repeat split; assumption.
Qed.

Hypothesis Hlt1 : my_stl.strict_weak_order lt1.
Hypothesis Hlt2 : my_stl.strict_weak_order lt2.

Lemma operator_lt_first_greater (p q : my_stl.pair T1 T2) :
  lt1 (my_stl.first q) (my_stl.first p) = true -> my_stl.operator_lt lt1 lt2 p q = false.
Proof.
  intros H. unfold my_stl.operator_lt.
  rewrite (swo_asymmetric lt1 Hlt1 _ _ H), H. reflexivity.
Qed.

(** Two pairs are incomparable exactly when both slots are. *)
Lemma operator_lt_incomparable (p q : my_stl.pair T1 T2) :
  my_stl.incomparable (my_stl.operator_lt lt1 lt2) p q <->
  my_stl.incomparable lt1 (my_stl.first p) (my_stl.first q) /\
  my_stl.incomparable lt2 (my_stl.second p) (my_stl.second q).
Proof.
  unfold my_stl.incomparable, my_stl.operator_lt.
  destruct (lt1 (my_stl.first p) (my_stl.first q)) eqn:Hpq;
    destruct (lt1 (my_stl.first q) (my_stl.first p)) eqn:Hqp;
    try (pose proof (swo_asymmetric lt1 Hlt1 _ _ Hpq));
    try (pose proof (swo_asymmetric lt1 Hlt1 _ _ Hqp));
    intuition congruence.
Qed.

Lemma operator_lt_irreflexive (p : my_stl.pair T1 T2) :
  my_stl.operator_lt lt1 lt2 p p = false.
Proof.
  unfold my_stl.operator_lt.
  rewrite (my_stl.swo_irreflexive lt1 Hlt1). apply (my_stl.swo_irreflexive lt2 Hlt2).
Qed.

Lemma operator_lt_transitive (p q r : my_stl.pair T1 T2) :
  my_stl.operator_lt lt1 lt2 p q = true ->
  my_stl.operator_lt lt1 lt2 q r = true ->
  my_stl.operator_lt lt1 lt2 p r = true.
Proof.
  intros Hpq Hqr.
  apply operator_lt_true_inv in Hpq. apply operator_lt_true_inv in Hqr.
  destruct Hpq as [Hpq | [Ipq Spq]]; destruct Hqr as [Hqr | [Iqr Sqr]].
  - apply operator_lt_first_less.
    exact (my_stl.swo_transitive lt1 Hlt1 _ _ _ Hpq Hqr).
  - apply operator_lt_first_less.
    exact (swo_lt_incomparable lt1 Hlt1 _ _ _ Hpq Iqr).
  - apply operator_lt_first_less.
    exact (swo_incomparable_lt lt1 Hlt1 _ _ _ Ipq Hqr).
  - pose proof (my_stl.swo_incomparable_transitive lt1 Hlt1 _ _ _ Ipq Iqr) as [H1 H2].
    rewrite (operator_lt_first_tied p r H1 H2).
    exact (my_stl.swo_transitive lt2 Hlt2 _ _ _ Spq Sqr).
Qed.

(** C6. For element orderings that are strict weak orderings, [p < q] is
    the lexicographic comparison of [(first, second)]: true when
    [p.first < q.first], false when [q.first < p.first], and
    [p.second < q.second] otherwise; and [p < q] is a strict weak ordering. *)
Theorem operator_lt_lexicographic_strict_weak :
  (forall p q : my_stl.pair T1 T2,
      lt1 (my_stl.first p) (my_stl.first q) = true ->
      my_stl.operator_lt lt1 lt2 p q = true) /\
  (forall p q : my_stl.pair T1 T2,
      lt1 (my_stl.first q) (my_stl.first p) = true ->
      my_stl.operator_lt lt1 lt2 p q = false) /\
  (forall p q : my_stl.pair T1 T2,
      lt1 (my_stl.first p) (my_stl.first q) = false ->
      lt1 (my_stl.first q) (my_stl.first p) = false ->
      my_stl.operator_lt lt1 lt2 p q = lt2 (my_stl.second p) (my_stl.second q)) /\
  my_stl.strict_weak_order (my_stl.operator_lt lt1 lt2).
Proof.
  split; [exact operator_lt_first_less|].
  split; [exact operator_lt_first_greater|].
  split; [exact operator_lt_first_tied|].
  constructor.
  - exact operator_lt_irreflexive.
  - exact operator_lt_transitive.
  - intros p q r Hpq Hqr.
    apply operator_lt_incomparable in Hpq. apply operator_lt_incomparable in Hqr.
    apply operator_lt_incomparable.
    destruct Hpq as [Hpq1 Hpq2], Hqr as [Hqr1 Hqr2]. split.
    + exact (my_stl.swo_incomparable_transitive lt1 Hlt1 _ _ _ Hpq1 Hqr1).
    + exact (my_stl.swo_incomparable_transitive lt2 Hlt2 _ _ _ Hpq2 Hqr2).
Qed.

End ordering_facts.

Lemma Z_ltb_strict_weak_order : my_stl.strict_weak_order Z.ltb.
Proof.
  constructor; unfold my_stl.incomparable.
  - intros x. apply Z.ltb_irrefl.
  - intros x y z. rewrite !Z.ltb_lt. lia.
  - intros x y z. rewrite !Z.ltb_ge. lia.
Qed.

(** The ordering of [pair<int, int>] is a lexicographic strict weak ordering. *)
Lemma operator_lt_lexicographic_strict_weak_witness :
  my_stl.strict_weak_order Z.ltb /\
  my_stl.operator_lt Z.ltb Z.ltb (my_stl.mk_pair 1 9) (my_stl.mk_pair 2 0) = true /\
  my_stl.strict_weak_order (my_stl.operator_lt Z.ltb Z.ltb).
Proof.
  pose proof (operator_lt_lexicographic_strict_weak Z.ltb Z.ltb
                Z_ltb_strict_weak_order Z_ltb_strict_weak_order) as [H1 [_ [_ H4]]].
  split; [exact Z_ltb_strict_weak_order|].
  split; [apply H1; reflexivity | exact H4].
Defined.

(** ** Hashing *)

Lemma lxor_mod_pow2 (w a b : Z) :
  0 <= w -> Z.lxor (a mod 2 ^ w) (b mod 2 ^ w) = Z.lxor a b mod 2 ^ w.
Proof.
  intros Hw. apply Z.bits_inj'. intros n Hn.
  rewrite Z.lxor_spec.
  destruct (Z.lt_ge_cases n w) as [Hlt | Hge].
  - rewrite !Z.mod_pow2_bits_low by assumption. rewrite Z.lxor_spec. reflexivity.
  - rewrite !Z.mod_pow2_bits_high by lia. reflexivity.
Qed.

Section hash_facts.
Context {T1 T2 : Type}.
Variable size_t_bits : Z.
Variable hash1 : T1 -> Z.
Variable hash2 : T2 -> Z.
Hypothesis size_t_bits_positive : 0 < size_t_bits.
Hypothesis hash1_is_size_t : forall x, 0 <= hash1 x < 2 ^ size_t_bits.

(** C7. With [h1] the hash of [p.first], a [std::size_t], and [h2] the
    hash of [p.second], the hash of [p] is [h1 ^ (h2 << 1)] in
    [std::size_t] arithmetic: it is a [std::size_t] again, and it is the
    exclusive or of [h1] and [2 * h2] cut to the width of the word. *)
Theorem hash_is_xor_of_shifted (p : my_stl.pair T1 T2) :
  let h1 := hash1 (my_stl.first p) in
  let h2 := hash2 (my_stl.second p) in
  my_stl.hash size_t_bits hash1 hash2 p
  = my_stl.size_t_xor h1 (my_stl.size_t_shl size_t_bits h2 1) /\
  my_stl.hash size_t_bits hash1 hash2 p
  = Z.lxor h1 (Z.shiftl h2 1) mod 2 ^ size_t_bits /\
  0 <= my_stl.hash size_t_bits hash1 hash2 p < 2 ^ size_t_bits.
Proof.
  intros h1 h2.
  assert (Heq : my_stl.hash size_t_bits hash1 hash2 p
                = Z.lxor h1 (Z.shiftl h2 1) mod 2 ^ size_t_bits).
  { unfold my_stl.hash, my_stl.size_t_xor, my_stl.size_t_shl, my_stl.size_t_modulus.
    fold h1 h2.
    rewrite <- lxor_mod_pow2 by lia.
    rewrite (Z.mod_small h1) by apply hash1_is_size_t.
    reflexivity. }
  split; [reflexivity|]. split; [exact Heq|].
  rewrite Heq. apply Z.mod_pos_bound. apply Z.pow_pos_nonneg; lia.
Qed.

End hash_facts.

(** On a 64-bit [std::size_t] the top bit of [h2] is shifted out. *)
Lemma hash_is_xor_of_shifted_witness :
  my_stl.hash 64 (fun x => x mod 2 ^ 64) (fun y => y mod 2 ^ 64)
    (my_stl.mk_pair 5 (2 ^ 63 + 1)) = 7.
Proof.
  pose proof (hash_is_xor_of_shifted 64 (fun x => x mod 2 ^ 64) (fun y => y mod 2 ^ 64)
                ltac:(lia)
                (fun x => Z.mod_pos_bound x (2 ^ 64) ltac:(lia))
                (my_stl.mk_pair 5 (2 ^ 63 + 1))) as [_ [H _]].
  rewrite H. reflexivity.
Defined.

(** ** Conversion to and from the standard pair *)

Section conversion_facts.
Context {T1 T2 U1 U2 : Type}.
Variable out1 : T1 -> U1.
Variable out2 : T2 -> U2.
Variable back1 : U1 -> T1.
Variable back2 : U2 -> T2.

(** The round trip through any [std::pair<U1, U2>] whose element
    conversions lose nothing on the two values held. *)
Lemma from_std_pair_to_std_pair (p : my_stl.pair T1 T2) :
  back1 (out1 (my_stl.first p)) = my_stl.first p ->
  back2 (out2 (my_stl.second p)) = my_stl.second p ->
  my_stl.from_std_pair back1 back2 (my_stl.to_std_pair out1 out2 p) = p.
Proof.
  destruct p as [a b]; unfold my_stl.from_std_pair, my_stl.to_std_pair; simpl.
  intros -> ->. reflexivity.
Qed.

End conversion_facts.




(** ** Exceptions *)

Section exception_facts.
Import cxx.
Context {T1 T2 : Type}.
Variable E1 : element T1.
Variable E2 : element T2.

Lemma noexcept_never_throws {S A : Type} (body : M S A) (s s' : S) (e : exception) :
  noexcept body s <> Throws e s'.
Proof. unfold noexcept. destruct (body s); discriminate. Qed.

Lemma noexcept_of_throw {S A : Type} (body : M S A) (s s' : S) (e : exception) :
  body s = Throws e s' -> noexcept body s = Terminates.
Proof. unfold noexcept. intros ->. reflexivity. Qed.

(** The constructor from two lvalues is not [noexcept]: what the copy of
    [first] throws reaches the caller as it is. *)
Lemma construct_from_values_propagates_first
    (this x y : loc) (h : my_stl.heap) (e : exception) (m : objects T1) :
  copy_construct E1 this x (my_stl.objects1 h) = Throws e m ->
  my_stl.construct_from_values E1 E2 this x y h
  = Throws e (my_stl.mk_heap m (my_stl.objects2 h)).
Proof.
  intros H. unfold my_stl.construct_from_values, mbind, M_bind, my_stl.on_first.
  rewrite H. reflexivity.
Qed.

(** So is what the copy assignment of [first] throws. *)
Lemma operator_assign_propagates_first
    (this other : loc) (h : my_stl.heap) (e : exception) (m : objects T1) :
  this <> other ->
  copy_assign E1 this other (my_stl.objects1 h) = Throws e m ->
  my_stl.operator_assign E1 E2 this other h
  = Throws e (my_stl.mk_heap m (my_stl.objects2 h)).
Proof.
  intros Hne H. unfold my_stl.operator_assign.
  destruct (decide (this <> other)) as [_ | Hn]; [|contradiction].
  unfold mbind, M_bind, my_stl.on_first. rewrite H. reflexivity.
Qed.

(** The constructor from two rvalues is [noexcept]: when the move of
    [first] throws, the program is ended. *)
Lemma construct_from_rvalues_terminates_first
    (this x y : loc) (h : my_stl.heap) (e : exception) (m : objects T1) :
  move_construct E1 this x (my_stl.objects1 h) = Throws e m ->
  my_stl.construct_from_rvalues E1 E2 this x y h = Terminates.
Proof.
  intros H. unfold my_stl.construct_from_rvalues.
  apply noexcept_of_throw with (e := e) (s' := my_stl.mk_heap m (my_stl.objects2 h)).
  unfold mbind, M_bind, my_stl.on_first. rewrite H. reflexivity.
Qed.

(** And so for the member [swap]. *)
Lemma swap_terminates_first
    (this other : loc) (h : my_stl.heap) (e : exception) (m : objects T1) :
  swap E1 this other (my_stl.objects1 h) = Throws e m ->
  my_stl.swap E1 E2 this other h = Terminates.
Proof.
  intros H. unfold my_stl.swap.
  apply noexcept_of_throw with (e := e) (s' := my_stl.mk_heap m (my_stl.objects2 h)).
  unfold mbind, M_bind, my_stl.on_first. rewrite H. reflexivity.
Qed.

End exception_facts.

(** C3. With [ThrowingType::should_throw] set, the constructor from two
    lvalues and the copy assignment let the exception of [ThrowingType]
    through unchanged, but the constructor from two rvalues, the move
    constructor from [std::pair], [swap] and the move assignment, all
    declared [noexcept], end the program instead of propagating it. *)
Theorem noexcept_members_terminate_on_throw :
  my_stl.construct_from_values (cxx.ThrowingType true) cxx.int_element
    3%positive 1%positive 1%positive my_stl.throwing_heap
  = cxx.Throws "Copy failed"%string my_stl.throwing_heap /\
  my_stl.operator_assign (cxx.ThrowingType true) cxx.int_element
    1%positive 2%positive my_stl.throwing_heap
  = cxx.Throws "Assignment failed"%string my_stl.throwing_heap /\
  my_stl.construct_from_rvalues (cxx.ThrowingType true) cxx.int_element
    3%positive 1%positive 1%positive my_stl.throwing_heap
  = cxx.Terminates /\
  my_stl.construct_from_std_rvalue (cxx.ThrowingType true) cxx.int_element
    3%positive 1%positive my_stl.throwing_heap
  = cxx.Terminates /\
  my_stl.swap (cxx.ThrowingType true) cxx.int_element
    1%positive 2%positive my_stl.throwing_heap
  = cxx.Terminates /\
  my_stl.swap_free (cxx.ThrowingType true) cxx.int_element
    1%positive 2%positive my_stl.throwing_heap
  = cxx.Terminates /\
  my_stl.operator_assign_move (cxx.ThrowingType true) cxx.int_element
    1%positive 2%positive my_stl.throwing_heap
  = cxx.Terminates.
Proof. repeat split; vm_compute; reflexivity. Qed.

(** With the flag clear the same calls return. *)
Lemma noexcept_members_return_without_throw :
  my_stl.load 3%positive
    <$> (match my_stl.construct_from_rvalues (cxx.ThrowingType false) cxx.int_element
                 3%positive 1%positive 1%positive my_stl.throwing_heap with
         | cxx.Returns _ h => Some h
         | _ => None
         end)
  = Some (Some (my_stl.mk_pair 42 100)).
Proof. vm_compute. reflexivity. Qed.

(** ** Assignment from itself *)

(** C10. Copy assignment and move assignment of a pair from itself return
    with every object as it was, whatever the element types' own
    assignments do: the slot assignments are skipped when source and target
    are the same object, so [first] and [second] keep their values. *)
Theorem self_assignment_changes_nothing {T1 T2 : Type}
    (E1 : cxx.element T1) (E2 : cxx.element T2) (p : cxx.loc) (h : my_stl.heap) :
  my_stl.operator_assign E1 E2 p p h = cxx.Returns tt h /\
  my_stl.operator_assign_move E1 E2 p p h = cxx.Returns tt h /\
  (forall h' : my_stl.heap,
      my_stl.operator_assign E1 E2 p p h = cxx.Returns tt h' \/
      my_stl.operator_assign_move E1 E2 p p h = cxx.Returns tt h' ->
      my_stl.load p h' = my_stl.load p h).
Proof.
  assert (Hc : my_stl.operator_assign E1 E2 p p h = cxx.Returns tt h).
  { unfold my_stl.operator_assign.
    destruct (decide (p <> p)) as [Hne | _]; [contradiction|reflexivity]. }
  assert (Hm : my_stl.operator_assign_move E1 E2 p p h = cxx.Returns tt h).
  { unfold my_stl.operator_assign_move, cxx.noexcept.
    destruct (decide (p <> p)) as [Hne | _]; [contradiction|reflexivity]. }
  split; [exact Hc|]. split; [exact Hm|].
  intros h' [H | H]; [rewrite Hc in H | rewrite Hm in H];
    injection H as <-; reflexivity.
Qed.

(** The guard matters: a vector moved into itself is emptied, and the
    assignment from [std::pair&&], which has no guard, would empty the
    [first] of a pair assigned from its own address. *)
Lemma self_move_of_vector_destroys :
  cxx.move_assign cxx.vector_element 1%positive 1%positive (my_stl.objects1 my_stl.vector_heap)
  = cxx.Returns tt (<[ 1%positive := [] ]> (my_stl.objects1 my_stl.vector_heap)) /\
  my_stl.load 1%positive
    <$> (match my_stl.operator_assign_from_std_rvalue cxx.vector_element cxx.int_element
                 1%positive 1%positive my_stl.vector_heap with
         | cxx.Returns _ h => Some h
         | _ => None
         end)
  = Some (Some (my_stl.mk_pair [] 100)) /\
  my_stl.load 1%positive
    <$> (match my_stl.operator_assign_move cxx.vector_element cxx.int_element
                 1%positive 1%positive my_stl.vector_heap with
         | cxx.Returns _ h => Some h
         | _ => None
         end)
  = Some (Some (my_stl.mk_pair [1; 2] 100)).
Proof. repeat split; vm_compute; reflexivity. Qed.

(** ** Exchange *)

Section regular_exchange.
Import cxx.
Context {T : Type}.
Variable moved_from : T -> T.
Variable self_moved : T -> T.

(** The generic three-move [std::swap] exchanges two live objects of a
    value type, and leaves an object exchanged with itself as it was, even
    though the object is moved from, and moved into itself, on the way. *)
Lemma regular_exchanges : my_stl.exchanges (regular moved_from self_moved).
Proof.
  intros m a b va vb Ha Hb. simpl. unfold std_swap.
  set (tmp := fresh (dom m : gset loc)).
  assert (Htmp : m !! tmp = None).
  { apply (proj1 (not_elem_of_dom m tmp)). apply is_fresh. }
  assert (Hta : tmp <> a) by congruence.
  assert (Htb : tmp <> b) by congruence.
  unfold mbind, M_bind.
  unfold regular_move_construct at 1. rewrite Ha.
  unfold regular_move_assign at 1.
  rewrite lookup_insert_ne by exact Hta. rewrite lookup_insert_eq.
  destruct (decide (a = b)) as [-> | Hab].
  - rewrite lookup_insert_ne by exact Hta. rewrite lookup_insert_eq.
    unfold regular_move_assign.
    rewrite lookup_insert_eq.
    rewrite lookup_insert_ne by congruence. rewrite lookup_insert_eq.
    destruct (decide (b = tmp)) as [Heq | _]; [congruence|].
    unfold regular_destroy.
    rewrite lookup_insert_ne by congruence. rewrite lookup_insert_eq.
    f_equal. apply map_eq. intros i.
    assert (va = vb) by congruence. subst vb.
    destruct (decide (i = tmp)) as [-> | Hit];
      [|destruct (decide (i = b)) as [-> | Hib]];
      repeat first [ rewrite lookup_delete_eq | rewrite lookup_insert_eq
                   | rewrite lookup_delete_ne by congruence
                   | rewrite lookup_insert_ne by congruence ];
      congruence.
  - rewrite lookup_insert_ne by exact Htb.
    rewrite lookup_insert_ne by exact Hab. rewrite Hb.
    unfold regular_move_assign.
    rewrite lookup_insert_ne by exact Hab. rewrite lookup_insert_eq.
    rewrite lookup_insert_ne by congruence.
    rewrite lookup_insert_ne by congruence. rewrite lookup_insert_eq.
    destruct (decide (b = tmp)) as [Heq | _]; [congruence|].
    unfold regular_destroy.
    rewrite lookup_insert_ne by congruence. rewrite lookup_insert_eq.
    f_equal. apply map_eq. intros i.
    destruct (decide (i = tmp)) as [-> | Hit];
      [|destruct (decide (i = b)) as [-> | Hib];
        [|destruct (decide (i = a)) as [-> | Hia]]];
      repeat first [ rewrite lookup_delete_eq | rewrite lookup_insert_eq
                   | rewrite lookup_delete_ne by congruence
                   | rewrite lookup_insert_ne by congruence ];
      congruence.
Qed.

End regular_exchange.

Section swap_facts.
Import cxx.
Context {T1 T2 : Type}.
Variable E1 : element T1.
Variable E2 : element T2.
Hypothesis HE1 : my_stl.exchanges E1.
Hypothesis HE2 : my_stl.exchanges E2.

Lemma load_Some (p : loc) (h : @my_stl.heap T1 T2) (v : my_stl.pair T1 T2) :
  my_stl.load p h = Some v <->
  my_stl.objects1 h !! p = Some (my_stl.first v) /\
  my_stl.objects2 h !! p = Some (my_stl.second v).
Proof.
  unfold my_stl.load. destruct v as [a b]; simpl.
  destruct (my_stl.objects1 h !! p), (my_stl.objects2 h !! p);
    split; try (intros [? ?]); try intros ?; try discriminate; try congruence.
  split; congruence.
Qed.

(** Two insertions that write what is there change nothing. *)
Lemma insert_insert_back {V : Type} (m : gmap positive V) (p q : positive) (x y : V) :
  m !! p = Some x -> m !! q = Some y ->
  <[q := y]> (<[p := x]> m) = m.
Proof.
  intros Hp Hq. rewrite (insert_id m p x Hp). apply insert_id, Hq.
Qed.

Lemma swap_exchanges (p q : loc) (h : my_stl.heap) (vp vq : my_stl.pair T1 T2) :
  my_stl.load p h = Some vp -> my_stl.load q h = Some vq ->
  my_stl.swap E1 E2 p q h
  = Returns tt
      (my_stl.mk_heap
         (<[q := my_stl.first vp]> (<[p := my_stl.first vq]> (my_stl.objects1 h)))
         (<[q := my_stl.second vp]> (<[p := my_stl.second vq]> (my_stl.objects2 h)))).
Proof.
  intros [Hp1 Hp2]%load_Some [Hq1 Hq2]%load_Some.
  unfold my_stl.swap, noexcept, mbind, M_bind, my_stl.on_first, my_stl.on_second.
  rewrite (HE1 _ p q _ _ Hp1 Hq1). simpl.
  rewrite (HE2 _ p q _ _ Hp2 Hq2). reflexivity.
Qed.

Lemma swap_free_is_swap (p q : loc) (h h' : my_stl.heap) :
  my_stl.swap E1 E2 p q h = Returns tt h' ->
  my_stl.swap_free E1 E2 p q h = Returns tt h'.
Proof. unfold my_stl.swap_free, noexcept at 1. intros ->. reflexivity. Qed.


End swap_facts.


(** * Further properties *)

(** ** Assignment across layouts *)

Section layout_slots.
Context {T1 T2 U1 U2 : Type}.
Variable assign1 : T1 -> U1 -> T1.
Variable assign2 : T2 -> U2 -> T2.


End layout_slots.

(** ** Reference element types *)

(** X3. A reference in either slot selects the layout with two data
    members for both slots: the other slot is not elided even when its
    type is an empty non-final class. *)
Theorem reference_disables_elision (T1 T2 : ctype) :
  traits.is_lvalue_reference_v T1 = true \/ traits.is_lvalue_reference_v T2 = true ->
  class_templates.pair_impl T1 T2
  = Accepted (TClass "pair_impl" false
                [TClass "pair_impl_base" false [] [T1; T2]] []).
Proof.
  intros [H | H].
  - destruct T1; try discriminate. destruct T2; reflexivity.
  - destruct T2; try discriminate. destruct T1; reflexivity.
Qed.

(** [pair_impl<int&, Empty1>] keeps [Empty1] as a member, which the policy
    alone would have elided. *)
Lemma reference_disables_elision_witness :
  class_templates.is_empty_and_non_final_v class_templates.Empty1 = true /\
  class_templates.pair_impl (TLRef TInt) class_templates.Empty1
  = Accepted (TClass "pair_impl" false
                [TClass "pair_impl_base" false []
                   [TLRef TInt; class_templates.Empty1]] []).
Proof.
  split; [reflexivity|].
  apply (reference_disables_elision (TLRef TInt) class_templates.Empty1).
  left; reflexivity.
Defined.

(** ** More on equality and ordering *)

Section equality_relation.
Context {T1 T2 : Type}.
Variable eq1 : T1 -> T1 -> bool.
Variable eq2 : T2 -> T2 -> bool.
Hypothesis eq1_refl : forall x, eq1 x x = true.
Hypothesis eq2_refl : forall x, eq2 x x = true.
Hypothesis eq1_sym : forall x y, eq1 x y = eq1 y x.
Hypothesis eq2_sym : forall x y, eq2 x y = eq2 y x.
Hypothesis eq1_trans : forall x y z, eq1 x y = true -> eq1 y z = true -> eq1 x z = true.
Hypothesis eq2_trans : forall x y z, eq2 x y = true -> eq2 y z = true -> eq2 x z = true.

(** X4. When [==] of both element types is an equivalence relation, so is
    [==] of pairs, and [!=] is irreflexive and symmetric. *)
Theorem operator_eq_is_equivalence :
  (forall p : my_stl.pair T1 T2, my_stl.operator_eq eq1 eq2 p p = true) /\
  (forall p q : my_stl.pair T1 T2,
      my_stl.operator_eq eq1 eq2 p q = my_stl.operator_eq eq1 eq2 q p) /\
  (forall p q r : my_stl.pair T1 T2,
      my_stl.operator_eq eq1 eq2 p q = true ->
      my_stl.operator_eq eq1 eq2 q r = true ->
      my_stl.operator_eq eq1 eq2 p r = true) /\
  (forall p : my_stl.pair T1 T2, my_stl.operator_ne eq1 eq2 p p = false) /\
  (forall p q : my_stl.pair T1 T2,
      my_stl.operator_ne eq1 eq2 p q = my_stl.operator_ne eq1 eq2 q p).
Proof.
  unfold my_stl.operator_ne, my_stl.operator_eq. repeat split.
  - intros p. rewrite eq1_refl, eq2_refl. reflexivity.
  - intros p q. rewrite (eq1_sym (my_stl.first p)), (eq2_sym (my_stl.second p)). reflexivity.
  - intros p q r [H1 H2]%andb_true_iff [H3 H4]%andb_true_iff.
    rewrite (eq1_trans _ _ _ H1 H3), (eq2_trans _ _ _ H2 H4). reflexivity.
  - intros p. rewrite eq1_refl, eq2_refl. reflexivity.
  - intros p q. rewrite (eq1_sym (my_stl.first p)), (eq2_sym (my_stl.second p)). reflexivity.
Qed.

End equality_relation.

Lemma Z_eqb_trans (x y z : Z) : (x =? y) = true -> (y =? z) = true -> (x =? z) = true.
Proof. rewrite !Z.eqb_eq. congruence. Qed.

(** [==] of [pair<int, int>]. *)
Lemma operator_eq_is_equivalence_witness :
  (forall p q r : my_stl.pair Z Z,
      my_stl.operator_eq Z.eqb Z.eqb p q = true ->
      my_stl.operator_eq Z.eqb Z.eqb q r = true ->
      my_stl.operator_eq Z.eqb Z.eqb p r = true) /\
  my_stl.operator_ne Z.eqb Z.eqb (my_stl.mk_pair 1 2) (my_stl.mk_pair 1 2) = false.
Proof.
  destruct (operator_eq_is_equivalence Z.eqb Z.eqb
              Z.eqb_refl Z.eqb_refl Z.eqb_sym Z.eqb_sym Z_eqb_trans Z_eqb_trans)
    as [_ [_ [Ht [Hn _]]]].
  split; [exact Ht | apply Hn].
Defined.

Section ordering_operators.
Context {T1 T2 : Type}.
Variable lt1 : T1 -> T1 -> bool.
Variable lt2 : T2 -> T2 -> bool.
Hypothesis Hlt1 : my_stl.strict_weak_order lt1.
Hypothesis Hlt2 : my_stl.strict_weak_order lt2.

Lemma operator_lt_strict_weak_order : my_stl.strict_weak_order (my_stl.operator_lt lt1 lt2).
Proof.
  constructor.
  - exact (operator_lt_irreflexive lt1 lt2 Hlt1 Hlt2).
  - exact (operator_lt_transitive lt1 lt2 Hlt1 Hlt2).
  - intros p q r Hpq Hqr.
    apply (operator_lt_incomparable lt1 lt2 Hlt1) in Hpq.
    apply (operator_lt_incomparable lt1 lt2 Hlt1) in Hqr.
    apply (operator_lt_incomparable lt1 lt2 Hlt1).
    destruct Hpq as [Hpq1 Hpq2], Hqr as [Hqr1 Hqr2]. split.
    + exact (my_stl.swo_incomparable_transitive lt1 Hlt1 _ _ _ Hpq1 Hqr1).
    + exact (my_stl.swo_incomparable_transitive lt2 Hlt2 _ _ _ Hpq2 Hqr2).
Qed.

(** X5. For element orderings that are strict weak orderings, exactly one
    of [p < q], [p > q] and [p <= q && p >= q] holds; [<=] is total and
    transitive, and [p < q] is [p <= q && !(q <= p)]. *)
Theorem ordering_operators_trichotomy_and_preorder :
  (forall p q : my_stl.pair T1 T2,
      (my_stl.operator_lt lt1 lt2 p q = true /\
       my_stl.operator_gt lt1 lt2 p q = false /\
       my_stl.operator_le lt1 lt2 p q && my_stl.operator_ge lt1 lt2 p q = false) \/
      (my_stl.operator_lt lt1 lt2 p q = false /\
       my_stl.operator_gt lt1 lt2 p q = true /\
       my_stl.operator_le lt1 lt2 p q && my_stl.operator_ge lt1 lt2 p q = false) \/
      (my_stl.operator_lt lt1 lt2 p q = false /\
       my_stl.operator_gt lt1 lt2 p q = false /\
       my_stl.operator_le lt1 lt2 p q && my_stl.operator_ge lt1 lt2 p q = true)) /\
  (forall p q : my_stl.pair T1 T2,
      my_stl.operator_le lt1 lt2 p q = true \/ my_stl.operator_le lt1 lt2 q p = true) /\
  (forall p q r : my_stl.pair T1 T2,
      my_stl.operator_le lt1 lt2 p q = true ->
      my_stl.operator_le lt1 lt2 q r = true ->
      my_stl.operator_le lt1 lt2 p r = true) /\
  (forall p q : my_stl.pair T1 T2,
      my_stl.operator_lt lt1 lt2 p q
      = my_stl.operator_le lt1 lt2 p q && negb (my_stl.operator_le lt1 lt2 q p)).
Proof.
  pose proof operator_lt_strict_weak_order as Hswo.
  pose proof (swo_asymmetric _ Hswo) as Hasym.
  unfold my_stl.operator_gt, my_stl.operator_le, my_stl.operator_ge.
  repeat split.
  - intros p q.
    destruct (my_stl.operator_lt lt1 lt2 p q) eqn:Hpq;
      destruct (my_stl.operator_lt lt1 lt2 q p) eqn:Hqp; simpl; auto.
    rewrite (Hasym _ _ Hpq) in Hqp. discriminate.
  - intros p q.
    destruct (my_stl.operator_lt lt1 lt2 q p) eqn:Hqp; [|left; reflexivity].
    right. rewrite (Hasym _ _ Hqp). reflexivity.
  - intros p q r Hpq Hqr.
    apply negb_true_iff in Hpq. apply negb_true_iff in Hqr. apply negb_true_iff.
    destruct (my_stl.operator_lt lt1 lt2 r p) eqn:Hrp; [exfalso|reflexivity].
    destruct (my_stl.operator_lt lt1 lt2 p q) eqn:Hpq'.
    + pose proof (my_stl.swo_transitive _ Hswo _ _ _ Hrp Hpq'). congruence.
    + assert (Hrq : my_stl.operator_lt lt1 lt2 r q = true).
      { apply (swo_lt_incomparable _ Hswo r p q Hrp). split; assumption. }
      congruence.
  - intros p q.
    destruct (my_stl.operator_lt lt1 lt2 p q) eqn:Hpq;
      destruct (my_stl.operator_lt lt1 lt2 q p) eqn:Hqp; simpl; auto.
    rewrite (Hasym _ _ Hpq) in Hqp. discriminate.
Qed.

Variable eq1 : T1 -> T1 -> bool.
Variable eq2 : T2 -> T2 -> bool.
Hypothesis eq1_lt1 : forall x y, eq1 x y = true <-> my_stl.incomparable lt1 x y.
Hypothesis eq2_lt2 : forall x y, eq2 x y = true <-> my_stl.incomparable lt2 x y.

(** X6. When, for both element types, [x == y] holds exactly if neither
    [x < y] nor [y < x] (as for the integers), the same holds of pairs:
    [p == q] exactly if neither [p < q] nor [q < p]; and [p <= q] is
    [p < q || p == q]. *)
Theorem equality_agrees_with_ordering (p q : my_stl.pair T1 T2) :
  (my_stl.operator_eq eq1 eq2 p q = true <->
     my_stl.operator_lt lt1 lt2 p q = false /\ my_stl.operator_lt lt1 lt2 q p = false) /\
  my_stl.operator_le lt1 lt2 p q
  = my_stl.operator_lt lt1 lt2 p q || my_stl.operator_eq eq1 eq2 p q.
Proof.
  assert (Heq : my_stl.operator_eq eq1 eq2 p q = true <->
                my_stl.incomparable (my_stl.operator_lt lt1 lt2) p q).
  { rewrite (operator_lt_incomparable lt1 lt2 Hlt1).
    unfold my_stl.operator_eq. rewrite andb_true_iff, eq1_lt1, eq2_lt2. reflexivity. }
  split; [exact Heq|].
  unfold my_stl.operator_le.
  pose proof (swo_asymmetric _ operator_lt_strict_weak_order) as Hasym.
  destruct (my_stl.operator_lt lt1 lt2 p q) eqn:Hpq.
  - rewrite (Hasym _ _ Hpq). reflexivity.
  - destruct (my_stl.operator_lt lt1 lt2 q p) eqn:Hqp; simpl.
    + destruct (my_stl.operator_eq eq1 eq2 p q) eqn:He; [|reflexivity].
      destruct (proj1 Heq eq_refl) as [_ Hqp']. congruence.
    + symmetry. apply Heq. split; assumption.
Qed.

End ordering_operators.

Lemma Z_eqb_incomparable (x y : Z) : (x =? y) = true <-> my_stl.incomparable Z.ltb x y.
Proof. unfold my_stl.incomparable. rewrite Z.eqb_eq, !Z.ltb_ge. lia. Qed.

(** The operators of [pair<int, int>]. *)
Lemma ordering_operators_trichotomy_and_preorder_witness :
  my_stl.operator_le Z.ltb Z.ltb (my_stl.mk_pair 1 5) (my_stl.mk_pair 1 7) = true \/
  my_stl.operator_le Z.ltb Z.ltb (my_stl.mk_pair 1 7) (my_stl.mk_pair 1 5) = true.
Proof.
  destruct (ordering_operators_trichotomy_and_preorder Z.ltb Z.ltb
              Z_ltb_strict_weak_order Z_ltb_strict_weak_order) as [_ [Htotal _]].
  apply Htotal.
Defined.

Lemma equality_agrees_with_ordering_witness :
  my_stl.operator_le Z.ltb Z.ltb (my_stl.mk_pair 1 5) (my_stl.mk_pair 1 7)
  = my_stl.operator_lt Z.ltb Z.ltb (my_stl.mk_pair 1 5) (my_stl.mk_pair 1 7)
    || my_stl.operator_eq Z.eqb Z.eqb (my_stl.mk_pair 1 5) (my_stl.mk_pair 1 7).
Proof.
  exact (proj2 (equality_agrees_with_ordering Z.ltb Z.ltb
                  Z_ltb_strict_weak_order Z_ltb_strict_weak_order
                  Z.eqb Z.eqb Z_eqb_incomparable Z_eqb_incomparable
                  (my_stl.mk_pair 1 5) (my_stl.mk_pair 1 7))).
Defined.

(** ** Comparison with [std::pair] *)

(** X7. Comparing a pair with a [std::pair] of the same element types, in
    either operand order and with any of the six operators, gives what the
    same operator gives on two pairs: the mixed operators agree with the
    pair's own through the conversion to [std::pair]. *)
Theorem mixed_comparison_agrees {T1 T2 : Type}
    (eq1 : T1 -> T1 -> bool) (eq2 : T2 -> T2 -> bool)
    (lt1 : T1 -> T1 -> bool) (lt2 : T2 -> T2 -> bool) (p q : my_stl.pair T1 T2) :
  let sp := my_stl.to_std_pair my_stl.copy my_stl.copy p in
  let sq := my_stl.to_std_pair my_stl.copy my_stl.copy q in
  (my_stl.operator_eq_std eq1 eq2 p sq = my_stl.operator_eq eq1 eq2 p q /\
   my_stl.operator_ne_std eq1 eq2 p sq = my_stl.operator_ne eq1 eq2 p q /\
   my_stl.operator_lt_std lt1 lt2 lt1 p sq = my_stl.operator_lt lt1 lt2 p q /\
   my_stl.operator_le_std lt1 lt1 lt2 p sq = my_stl.operator_le lt1 lt2 p q /\
   my_stl.operator_gt_std lt1 lt1 lt2 p sq = my_stl.operator_gt lt1 lt2 p q /\
   my_stl.operator_ge_std lt1 lt2 lt1 p sq = my_stl.operator_ge lt1 lt2 p q) /\
  (my_stl.std_operator_eq eq1 eq2 sp q = my_stl.operator_eq eq1 eq2 p q /\
   my_stl.std_operator_ne eq1 eq2 sp q = my_stl.operator_ne eq1 eq2 p q /\
   my_stl.std_operator_lt lt1 lt1 lt2 sp q = my_stl.operator_lt lt1 lt2 p q /\
   my_stl.std_operator_le lt1 lt2 lt1 sp q = my_stl.operator_le lt1 lt2 p q /\
   my_stl.std_operator_gt lt1 lt2 lt1 sp q = my_stl.operator_gt lt1 lt2 p q /\
   my_stl.std_operator_ge lt1 lt1 lt2 sp q = my_stl.operator_ge lt1 lt2 p q).
Proof. destruct p, q. repeat split. Qed.

(** The round trip the other way: a [std::pair] converted to a pair and
    back is the [std::pair] one started from. *)
Lemma to_std_pair_from_std_pair {T1 T2 : Type} (sp : my_stl.std_pair T1 T2) :
  my_stl.to_std_pair my_stl.copy my_stl.copy
    (my_stl.from_std_pair my_stl.copy my_stl.copy sp) = sp.
Proof. destruct sp; reflexivity. Qed.

(** ** More on hashing *)

Section hash_equality.
Context {T1 T2 : Type}.
Variable size_t_bits : Z.
Variable eq1 : T1 -> T1 -> bool.
Variable eq2 : T2 -> T2 -> bool.
Variable hash1 : T1 -> Z.
Variable hash2 : T2 -> Z.
Hypothesis hash1_eq : forall x y, eq1 x y = true -> hash1 x = hash1 y.
Hypothesis hash2_eq : forall x y, eq2 x y = true -> hash2 x = hash2 y.

(** X8. When equal elements have equal hashes, equal pairs have equal
    hashes: the hash can key an unordered container together with [==]. *)
Theorem hash_respects_equality (p q : my_stl.pair T1 T2) :
  my_stl.operator_eq eq1 eq2 p q = true ->
  my_stl.hash size_t_bits hash1 hash2 p = my_stl.hash size_t_bits hash1 hash2 q.
Proof.
  unfold my_stl.operator_eq, my_stl.hash. intros [H1 H2]%andb_true_iff.
  rewrite (hash1_eq _ _ H1), (hash2_eq _ _ H2). reflexivity.
Qed.

End hash_equality.

(** Integers compared and hashed by absolute value: [(3, 4)] and [(-3, 4)]. *)
Lemma hash_respects_equality_witness :
  my_stl.hash 64 (fun x => Z.abs x mod 2 ^ 64) (fun y => y mod 2 ^ 64) (my_stl.mk_pair 3 4)
  = my_stl.hash 64 (fun x => Z.abs x mod 2 ^ 64) (fun y => y mod 2 ^ 64) (my_stl.mk_pair (-3) 4).
Proof.
  apply (hash_respects_equality 64 (fun x y => Z.abs x =? Z.abs y) Z.eqb).
  - intros x y H. apply Z.eqb_eq in H. rewrite H. reflexivity.
  - intros x y H. apply Z.eqb_eq in H. subst. reflexivity.
  - reflexivity.
Defined.

Section hash_collisions.
Context {T1 T2 : Type}.
Variable size_t_bits : Z.
Variable hash1 : T1 -> Z.
Variable hash2 : T2 -> Z.
Hypothesis size_t_bits_positive : 0 < size_t_bits.

(** X9. The top bit of the hash of [second] never reaches the hash of the
    pair: two pairs whose [first] hash alike and whose [second] hashes
    differ at most in the top bit of the word have the same hash. *)
Theorem hash_drops_top_bit_of_second (p q : my_stl.pair T1 T2) :
  hash1 (my_stl.first p) = hash1 (my_stl.first q) ->
  hash2 (my_stl.second p) mod 2 ^ (size_t_bits - 1)
  = hash2 (my_stl.second q) mod 2 ^ (size_t_bits - 1) ->
  my_stl.hash size_t_bits hash1 hash2 p = my_stl.hash size_t_bits hash1 hash2 q.
Proof.
  intros H1 H2.
  unfold my_stl.hash, my_stl.size_t_xor, my_stl.size_t_shl, my_stl.size_t_modulus.
  rewrite H1. f_equal.
  rewrite !Z.shiftl_mul_pow2 by lia. change (2 ^ 1) with 2.
  replace (2 ^ size_t_bits) with (2 * 2 ^ (size_t_bits - 1)).
  - rewrite !(Z.mul_comm _ 2).
    rewrite !Z.mul_mod_distr_l by (try lia; apply Z.pow_nonzero; lia).
    rewrite H2. reflexivity.
  - rewrite <- Z.pow_succ_r by lia. f_equal. lia.
Qed.

End hash_collisions.

(** On a 64-bit word, [(5, 1)] and [(5, 2^63 + 1)] collide. *)
Lemma hash_drops_top_bit_of_second_witness :
  my_stl.hash 64 (fun x => x) (fun y => y) (my_stl.mk_pair 5 1)
  = my_stl.hash 64 (fun x => x) (fun y => y) (my_stl.mk_pair 5 (2 ^ 63 + 1)).
Proof.
  apply (hash_drops_top_bit_of_second 64 (fun x => x) (fun y => y)); [lia | | ]; reflexivity.
Defined.

(** ** Tuple access *)

(** X10. [std::get<I>] and [std::tuple_element<I, ...>] are accepted
    exactly for [I < std::tuple_size], that is for 0 and 1; [get<0>] is
    [first], [get<1>] is [second], and the two together determine the pair. *)
Theorem get_is_bounded_and_complete {T1 T2 : Type} (E1 E2 : ctype) :
  (forall (I : nat) (p : my_stl.pair T1 T2),
      (is_Some (my_stl.get I p) <-> (I < my_stl.tuple_size)%nat) /\
      ((exists T, traits.tuple_element I E1 E2 = Accepted T) <-> (I < my_stl.tuple_size)%nat)) /\
  (forall p : my_stl.pair T1 T2,
      my_stl.get 0 p = Some (inl (my_stl.first p)) /\
      my_stl.get 1 p = Some (inr (my_stl.second p))) /\
  traits.tuple_element 0 E1 E2 = Accepted E1 /\
  traits.tuple_element 1 E1 E2 = Accepted E2 /\
  (forall p q : my_stl.pair T1 T2,
      my_stl.get 0 p = my_stl.get 0 q -> my_stl.get 1 p = my_stl.get 1 q -> p = q).
Proof.
  repeat split; try reflexivity.
  all: try (destruct p as [a b], q as [a' b']; unfold my_stl.get; simpl; congruence).
  - unfold my_stl.get. destruct (Nat.ltb_spec I 2) as [Hlt | Hge].
    + intros _. exact Hlt.
    + intros [v Hv]. discriminate.
  - unfold my_stl.get, my_stl.tuple_size. intros Hlt.
    destruct (Nat.ltb_spec I 2) as [_ | Hge]; [eexists; reflexivity | lia].
  - unfold traits.tuple_element. destruct (Nat.ltb_spec I 2) as [Hlt | Hge].
    + intros _. exact Hlt.
    + intros [v Hv]. discriminate.
  - unfold traits.tuple_element, my_stl.tuple_size. intros Hlt.
    destruct (Nat.ltb_spec I 2) as [_ | Hge]; [eexists; reflexivity | lia].
Qed.

(** ** Index sequences *)

Lemma make_index_sequence_helper_spec (N : nat) (Ints : list nat) :
  traits.make_index_sequence_helper N Ints = seq 0 N ++ Ints.
Proof.
  revert Ints. induction N as [|N IH]; intros Ints.
  - reflexivity.
  - simpl traits.make_index_sequence_helper. rewrite IH.
    rewrite seq_S. rewrite <- app_assoc. reflexivity.
Qed.

(** X11. [make_index_sequence<N>] is [index_sequence<0, 1, ..., N - 1>]:
    [N] indices, the [i]-th of which is [i]. *)
Theorem make_index_sequence_counts_up (N : nat) :
  traits.make_index_sequence N = seq 0 N /\
  length (traits.make_index_sequence N) = N /\
  (forall i : nat, (i < N)%nat -> nth_error (traits.make_index_sequence N) i = Some i).
Proof.
  assert (H : traits.make_index_sequence N = seq 0 N).
  { unfold traits.make_index_sequence. rewrite make_index_sequence_helper_spec.
    apply app_nil_r. }
  rewrite H. split; [reflexivity|]. split; [apply length_seq|].
  intros i Hi. rewrite nth_error_nth' with (d := 0%nat) by (rewrite length_seq; exact Hi).
  rewrite seq_nth by exact Hi. reflexivity.
Qed.

(** ** The element types of [make_pair] *)

Lemma unwrap_reference_t_not_array (T E : ctype) (N : positive) :
  (forall E' N', T <> TArray E' N') -> traits.unwrap_reference_t T <> TArray E N.
Proof.
  intros HT. unfold traits.unwrap_reference_t.
  destruct T as [ | | | ? | name final bases members | ? | ? ?]; try discriminate.
  - destruct final; [discriminate|].
    destruct bases; [|discriminate].
    destruct members as [|M [|? ?]]; try discriminate;
      destruct M; try discriminate.
    destruct (String.eqb name "std::reference_wrapper"); discriminate.
  - apply HT.
Qed.

Lemma decay_t_not_array (T E : ctype) (N : positive) : traits.decay_t T <> TArray E N.
Proof.
  unfold traits.decay_t. destruct (traits.remove_reference_t T); discriminate.
Qed.

(** X12. The element types of the pair [make_pair] returns are never
    array types: an array argument, passed by reference as the call passes
    it, becomes a pointer to its element, and a [std::reference_wrapper<T>]
    becomes [T&]. So these element types never select the array
    specialisation of [pair_impl], the one with the static assertion. *)
Theorem make_pair_decays_arrays (T1 T2 : ctype) :
  (forall (E : ctype) (N : positive),
      traits.unwrap_ref_decay_t T1 <> TArray E N /\
      traits.unwrap_ref_decay_t T2 <> TArray E N) /\
  (forall (E : ctype) (N : positive),
      traits.unwrap_ref_decay_t (TLRef (TArray E N)) = TPtr E /\
      traits.unwrap_ref_decay_t (TArray E N) = TPtr E) /\
  (forall U : ctype,
      traits.unwrap_ref_decay_t (traits.reference_wrapper U) = TLRef U /\
      traits.unwrap_ref_decay_t (TLRef (traits.reference_wrapper U)) = TLRef U) /\
  (forall E1 E2 : ctype,
      class_templates.select_pair_impl
        (traits.unwrap_ref_decay_t T1) (traits.unwrap_ref_decay_t T2)
      <> class_templates.ArrayBoth E1 E2).
Proof.
  assert (Hna : forall T E N, traits.unwrap_ref_decay_t T <> TArray E N).
  { intros T E N. unfold traits.unwrap_ref_decay_t.
    apply unwrap_reference_t_not_array. intros E' N'. apply decay_t_not_array. }
  repeat split; try reflexivity; try apply Hna.
  pose proof (Hna T1) as H1.
  destruct (traits.unwrap_ref_decay_t T1) as [ | | | ? | ? ? ? ? | ? | A1 N1];
    destruct (traits.unwrap_ref_decay_t T2) as [ | | | ? | ? ? ? ? | ? | A2 N2];
    simpl; try discriminate.
  exfalso. exact (H1 A1 N1 eq_refl).
Qed.

(** ** Construction and assignment of value types *)

Section value_type_members.
Import cxx.
Context {T1 T2 : Type}.
Variable moved_from1 : T1 -> T1.
Variable self_moved1 : T1 -> T1.
Variable moved_from2 : T2 -> T2.
Variable self_moved2 : T2 -> T2.


(** X14. For value types and storage not in use, a pair constructed from
    two rvalues, or from an rvalue [std::pair], holds the sources' values
    and leaves each source in its type's moved-from state; nothing else
    changes and the program is not ended. *)
Theorem move_construction_moves
    (this x y : loc) (h : my_stl.heap) (vx : T1) (vy : T2) :
  my_stl.objects1 h !! this = None ->
  my_stl.objects2 h !! this = None ->
  my_stl.objects1 h !! x = Some vx ->
  my_stl.objects2 h !! y = Some vy ->
  exists h' : my_stl.heap,
    my_stl.construct_from_rvalues (regular moved_from1 self_moved1)
      (regular moved_from2 self_moved2) this x y h = Returns tt h' /\
    (x = y ->
       my_stl.construct_from_std_rvalue (regular moved_from1 self_moved1)
         (regular moved_from2 self_moved2) this x h = Returns tt h') /\
    my_stl.load this h' = Some (my_stl.mk_pair vx vy) /\
    my_stl.objects1 h' !! x = Some (moved_from1 vx) /\
    my_stl.objects2 h' !! y = Some (moved_from2 vy) /\
    (forall l : loc, l <> this -> l <> x -> my_stl.objects1 h' !! l = my_stl.objects1 h !! l) /\
    (forall l : loc, l <> this -> l <> y -> my_stl.objects2 h' !! l = my_stl.objects2 h !! l).
Proof.
  intros Ht1 Ht2 Hx Hy.
  assert (Hne1 : this <> x) by congruence.
  assert (Hne2 : this <> y) by congruence.
  exists (my_stl.mk_heap
            (<[this := vx]> (<[x := moved_from1 vx]> (my_stl.objects1 h)))
            (<[this := vy]> (<[y := moved_from2 vy]> (my_stl.objects2 h)))).
  assert (Hc : my_stl.construct_from_rvalues (regular moved_from1 self_moved1)
                 (regular moved_from2 self_moved2) this x y h
               = Returns tt
                   (my_stl.mk_heap
                      (<[this := vx]> (<[x := moved_from1 vx]> (my_stl.objects1 h)))
                      (<[this := vy]> (<[y := moved_from2 vy]> (my_stl.objects2 h))))).
  { unfold my_stl.construct_from_rvalues, noexcept, my_stl.unwinding, mbind, M_bind,
      my_stl.on_first, my_stl.on_second; simpl.
    unfold regular_move_construct. rewrite Hx; simpl. rewrite Hy. reflexivity. }
  split; [exact Hc|]. split; [intros <-; exact Hc|]. simpl.
  split; [apply load_Some; simpl; rewrite !lookup_insert_eq; split; reflexivity|].
  split; [rewrite lookup_insert_ne by congruence; apply lookup_insert_eq|].
  split; [rewrite lookup_insert_ne by congruence; apply lookup_insert_eq|].
  split; intros l Hl1 Hl2; rewrite !lookup_insert_ne by congruence; reflexivity.
Qed.

(** X15. When the constructor of [second] throws after [first] was
    constructed, the constructor from two lvalues destroys [first] again
    and lets the exception through: the objects of the first element type
    are exactly those there were before the call. *)
Theorem failed_construction_leaves_no_first
    (E2 : element T2) (this x y : loc) (h : my_stl.heap) (vx : T1)
    (e : exception) (m2 : gmap positive T2) :
  my_stl.objects1 h !! this = None ->
  my_stl.objects1 h !! x = Some vx ->
  copy_construct E2 this y (my_stl.objects2 h) = Throws e m2 ->
  my_stl.construct_from_values (regular moved_from1 self_moved1) E2 this x y h
  = Throws e (my_stl.mk_heap (my_stl.objects1 h) m2).
Proof.
  intros Ht Hx Hthrow.
  unfold my_stl.construct_from_values, my_stl.unwinding, mbind, M_bind,
    my_stl.on_first, my_stl.on_second; simpl.
  unfold regular_copy_construct. rewrite Hx; simpl. rewrite Hthrow; simpl.
  unfold regular_destroy. rewrite lookup_insert_eq.
  rewrite (delete_insert_id _ _ _ Ht). reflexivity.
Qed.

(** X16. For value types and two distinct live pairs, copy assignment
    gives the target the source's value and changes nothing else. *)
Theorem copy_assignment_copies
    (this other : loc) (h : my_stl.heap) (vt vo : my_stl.pair T1 T2) :
  this <> other ->
  my_stl.load this h = Some vt ->
  my_stl.load other h = Some vo ->
  exists h' : my_stl.heap,
    my_stl.operator_assign (regular moved_from1 self_moved1)
      (regular moved_from2 self_moved2) this other h = Returns tt h' /\
    my_stl.operator_assign_from_std (regular moved_from1 self_moved1)
      (regular moved_from2 self_moved2) this other h = Returns tt h' /\
    my_stl.load this h' = Some vo /\
    (forall l : loc, l <> this -> my_stl.load l h' = my_stl.load l h).
Proof.
  intros Hne [Ht1 Ht2]%load_Some [Ho1 Ho2]%load_Some.
  exists (my_stl.mk_heap (<[this := my_stl.first vo]> (my_stl.objects1 h))
                         (<[this := my_stl.second vo]> (my_stl.objects2 h))).
  assert (Hc : my_stl.operator_assign_from_std (regular moved_from1 self_moved1)
                 (regular moved_from2 self_moved2) this other h
               = Returns tt
                   (my_stl.mk_heap (<[this := my_stl.first vo]> (my_stl.objects1 h))
                                   (<[this := my_stl.second vo]> (my_stl.objects2 h)))).
  { unfold my_stl.operator_assign_from_std, mbind, M_bind,
      my_stl.on_first, my_stl.on_second; simpl.
    unfold regular_copy_assign. rewrite Ht1, Ho1; simpl. rewrite Ht2, Ho2. reflexivity. }
  split; [|split; [exact Hc|split]].
  - unfold my_stl.operator_assign.
    destruct (decide (this <> other)) as [_ | Hn]; [exact Hc | contradiction].
  - apply load_Some; simpl. rewrite !lookup_insert_eq. split; reflexivity.
  - intros l Hl. unfold my_stl.load; simpl.
    rewrite !lookup_insert_ne by congruence. reflexivity.
Qed.

(** X17. Copy assignment is not atomic: when the assignment of [second]
    throws, the exception reaches the caller with [first] already holding
    the source's value. *)
Theorem copy_assignment_is_not_atomic
    (E2 : element T2) (this other : loc) (h : my_stl.heap) (a a' : T1)
    (e : exception) (m2 : gmap positive T2) :
  this <> other ->
  my_stl.objects1 h !! this = Some a ->
  my_stl.objects1 h !! other = Some a' ->
  copy_assign E2 this other (my_stl.objects2 h) = Throws e m2 ->
  my_stl.operator_assign (regular moved_from1 self_moved1) E2 this other h
  = Throws e (my_stl.mk_heap (<[this := a']> (my_stl.objects1 h)) m2).
Proof.
  intros Hne Ht Ho Hthrow. unfold my_stl.operator_assign.
  destruct (decide (this <> other)) as [_ | Hn]; [|contradiction].
  unfold mbind, M_bind, my_stl.on_first, my_stl.on_second; simpl.
  unfold regular_copy_assign. rewrite Ht, Ho; simpl. rewrite Hthrow. reflexivity.
Qed.

(** X18. For value types and two distinct live pairs, move assignment
    gives the target the source's value and leaves both slots of the
    source in their moved-from states; nothing else changes. *)
Theorem move_assignment_moves
    (this other : loc) (h : my_stl.heap) (vt vo : my_stl.pair T1 T2) :
  this <> other ->
  my_stl.load this h = Some vt ->
  my_stl.load other h = Some vo ->
  exists h' : my_stl.heap,
    my_stl.operator_assign_move (regular moved_from1 self_moved1)
      (regular moved_from2 self_moved2) this other h = Returns tt h' /\
    my_stl.operator_assign_from_std_rvalue (regular moved_from1 self_moved1)
      (regular moved_from2 self_moved2) this other h = Returns tt h' /\
    my_stl.load this h' = Some vo /\
    my_stl.load other h'
    = Some (my_stl.mk_pair (moved_from1 (my_stl.first vo)) (moved_from2 (my_stl.second vo))) /\
    (forall l : loc, l <> this -> l <> other -> my_stl.load l h' = my_stl.load l h).
Proof.
  intros Hne [Ht1 Ht2]%load_Some [Ho1 Ho2]%load_Some.
  exists (my_stl.mk_heap
            (<[this := my_stl.first vo]>
               (<[other := moved_from1 (my_stl.first vo)]> (my_stl.objects1 h)))
            (<[this := my_stl.second vo]>
               (<[other := moved_from2 (my_stl.second vo)]> (my_stl.objects2 h)))).
  assert (Hc : my_stl.operator_assign_from_std_rvalue (regular moved_from1 self_moved1)
                 (regular moved_from2 self_moved2) this other h
               = Returns tt
                   (my_stl.mk_heap
                      (<[this := my_stl.first vo]>
                         (<[other := moved_from1 (my_stl.first vo)]> (my_stl.objects1 h)))
                      (<[this := my_stl.second vo]>
                         (<[other := moved_from2 (my_stl.second vo)]> (my_stl.objects2 h))))).
  { unfold my_stl.operator_assign_from_std_rvalue, mbind, M_bind,
      my_stl.on_first, my_stl.on_second; simpl.
    unfold regular_move_assign. rewrite Ht1, Ho1; simpl.
    destruct (decide (this = other)) as [Heq | _]; [contradiction|]. simpl.
    rewrite Ht2, Ho2.
    destruct (decide (this = other)) as [Heq | _]; [contradiction|]. reflexivity. }
  split; [|split; [exact Hc|]].
  - unfold my_stl.operator_assign_move, noexcept.
    destruct (decide (this <> other)) as [_ | Hn]; [|contradiction].
    unfold my_stl.operator_assign_from_std_rvalue in Hc. rewrite Hc. reflexivity.
  - split; [apply load_Some; simpl; rewrite !lookup_insert_eq; split; reflexivity|].
    split.
    + apply load_Some; simpl.
      rewrite !(lookup_insert_ne _ this other) by congruence.
      rewrite !lookup_insert_eq. split; reflexivity.
    + intros l Hl1 Hl2. unfold my_stl.load; simpl.
      rewrite !lookup_insert_ne by congruence. reflexivity.
Qed.

End value_type_members.

(** X19. The free [swap] does on every pair of addresses and every store
    what the member [swap] does, also when that ends the program. *)
Theorem swap_free_is_member_swap {T1 T2 : Type}
    (E1 : cxx.element T1) (E2 : cxx.element T2) (lhs rhs : cxx.loc) (h : my_stl.heap) :
  my_stl.swap_free E1 E2 lhs rhs h = my_stl.swap E1 E2 lhs rhs h.
Proof.
  unfold my_stl.swap_free, my_stl.swap, cxx.noexcept.
  match goal with |- context [match ?b h with _ => _ end] => destruct (b h) end;
    reflexivity.
Qed.


Lemma move_construction_moves_witness :
  exists h' : my_stl.heap,
    my_stl.construct_from_rvalues cxx.vector_element cxx.int_element
      3%positive 1%positive 2%positive my_stl.vector_heap = cxx.Returns tt h' /\
    my_stl.load 3%positive h' = Some (my_stl.mk_pair [1; 2] 7) /\
    my_stl.objects1 h' !! 1%positive = Some [].
Proof.
  destruct (move_construction_moves (fun _ => []) (fun _ => []) (fun v => v) (fun v => v)
              3%positive 1%positive 2%positive my_stl.vector_heap [1; 2] 7
              eq_refl eq_refl eq_refl eq_refl)
    as [h' [H1 [_ [H2 [H3 _]]]]].
  exists h'. repeat split; assumption.
Defined.

Lemma failed_construction_leaves_no_first_witness :
  my_stl.construct_from_values cxx.vector_element (cxx.ThrowingType true)
    3%positive 1%positive 1%positive my_stl.vector_heap
  = cxx.Throws "Copy failed"%string my_stl.vector_heap.
Proof.
  exact (failed_construction_leaves_no_first (fun _ => []) (fun _ => [])
           (cxx.ThrowingType true) 3%positive 1%positive 1%positive my_stl.vector_heap
           [1; 2] "Copy failed"%string (my_stl.objects2 my_stl.vector_heap)
           eq_refl eq_refl eq_refl).
Defined.

Lemma copy_assignment_copies_witness :
  exists h' : my_stl.heap,
    my_stl.operator_assign cxx.vector_element cxx.int_element
      1%positive 2%positive my_stl.vector_heap = cxx.Returns tt h' /\
    my_stl.load 1%positive h' = Some (my_stl.mk_pair [3] 7).
Proof.
  destruct (copy_assignment_copies (fun _ => []) (fun _ => []) (fun v => v) (fun v => v)
              1%positive 2%positive my_stl.vector_heap
              (my_stl.mk_pair [1; 2] 100) (my_stl.mk_pair [3] 7)
              ltac:(discriminate) eq_refl eq_refl)
    as [h' [H1 [_ [H2 _]]]].
  exists h'. split; assumption.
Defined.

(** [pair<int, ThrowingType>]: [first] is assigned, then [second] throws. *)
Lemma copy_assignment_is_not_atomic_witness :
  my_stl.operator_assign cxx.int_element (cxx.ThrowingType true)
    1%positive 2%positive my_stl.throwing_heap
  = cxx.Throws "Assignment failed"%string
      (my_stl.mk_heap (<[ 1%positive := 7 ]> (my_stl.objects1 my_stl.throwing_heap))
                      (my_stl.objects2 my_stl.throwing_heap)).
Proof.
  exact (copy_assignment_is_not_atomic (fun v => v) (fun v => v)
           (cxx.ThrowingType true) 1%positive 2%positive my_stl.throwing_heap
           42 7 "Assignment failed"%string (my_stl.objects2 my_stl.throwing_heap)
           ltac:(discriminate) eq_refl eq_refl eq_refl).
Defined.

Lemma move_assignment_moves_witness :
  exists h' : my_stl.heap,
    my_stl.operator_assign_move cxx.vector_element cxx.int_element
      1%positive 2%positive my_stl.vector_heap = cxx.Returns tt h' /\
    my_stl.load 1%positive h' = Some (my_stl.mk_pair [3] 7) /\
    my_stl.load 2%positive h' = Some (my_stl.mk_pair [] 7).
Proof.
  destruct (move_assignment_moves (fun _ => []) (fun _ => []) (fun v => v) (fun v => v)
              1%positive 2%positive my_stl.vector_heap
              (my_stl.mk_pair [1; 2] 100) (my_stl.mk_pair [3] 7)
              ltac:(discriminate) eq_refl eq_refl)
    as [h' [H1 [_ [H2 [H3 _]]]]].
  exists h'. repeat split; assumption.
Defined.
